(** * display.h: the format scanner and the render drivers

    A shallow embedding of [find_format_specifiers], [display_vprint] and
    [display_vfprint] from [display.h], with the memory reads of the C code
    made explicit: a [char *] is the list of the bytes from the pointer to
    the end of its array, so that reading behind the terminating NUL is
    visible as a fault. *)

From Stdlib Require Import String Ascii List ZArith Lia Bool Arith.
From Stdlib Require Import DecimalString.
Import ListNotations.

Local Open Scope string_scope.
Local Open Scope list_scope.
Local Open Scope Z_scope.

(** ** Faults and results *)

(** What a C run can end in besides a value.  [OutOfBounds] is a read
    behind the last byte of the template's array, [NullDeref] a read through
    a null pointer, [BadArg] a [va_arg] that finds no argument of the type it
    asks for (all three are undefined behaviour in C), and [OutOfFuel]
    stands for a loop that does not stop. *)
Inductive fault : Type :=
| OutOfBounds
| NullDeref
| BadArg
| OutOfFuel.

Inductive result (A : Type) : Type :=
| Ok (a : A)
| Fault (f : fault).

Arguments Ok {A} a.
Arguments Fault {A} f.

Definition bind {A B : Type} (r : result A) (k : A -> result B) : result B :=
  match r with
  | Ok a => k a
  | Fault f => Fault f
  end.

Notation "'do' x <- r ; k" := (bind r (fun x => k))
  (at level 10, x pattern, r at level 100, k at level 200).

(** ** Characters and C strings *)

Definition NUL : ascii := Ascii.zero.

(** A pointer into a [char] array: the bytes from the pointer to the end of
    the array, the terminator included.  [[]] is the pointer one past the end;
    reading through it is out of bounds. *)
Definition ptr : Type := list ascii.

(** The array of a C string literal: its characters and the terminator. *)
Definition c_array (s : string) : ptr := list_ascii_of_string s ++ [NUL].

(** [*p] *)
Definition deref (p : ptr) : result ascii :=
  match p with
  | [] => Fault OutOfBounds
  | c :: _ => Ok c
  end.

(** [p + n]; a pointer behind one-past-the-end cannot be formed. *)
Definition advance (n : nat) (p : ptr) : result ptr :=
  if (n <=? length p)%nat then Ok (skipn n p) else Fault OutOfBounds.

(** [strchr(set, c) != NULL].  The terminator of [set] is part of the string
    that [strchr] searches, so the NUL character is always found. *)
Definition strchr (set : string) (c : ascii) : bool :=
  Ascii.eqb c NUL || existsb (Ascii.eqb c) (list_ascii_of_string set).

(** [isdigit(c)] in the C locale. *)
Definition isdigit (c : ascii) : bool :=
  let n := nat_of_ascii c in ((48 <=? n) && (n <=? 57))%nat.

(** The characters of a buffer up to its first NUL: the buffer read as a C
    string. *)
Fixpoint c_str (buf : list ascii) : list ascii :=
  match buf with
  | [] => []
  | c :: rest => if Ascii.eqb c NUL then [] else c :: c_str rest
  end.

Fixpoint list_ascii_eqb (a b : list ascii) : bool :=
  match a, b with
  | [], [] => true
  | x :: a', y :: b' => Ascii.eqb x y && list_ascii_eqb a' b'
  | _, _ => false
  end.

(** [strcmp(buf, lit) == 0] *)
Definition strcmp_eq (buf : list ascii) (lit : string) : bool :=
  list_ascii_eqb (c_str buf) (list_ascii_of_string lit).

(** ** The argument type tags *)

Inductive var_type : Type :=
| TYPE_FLOAT
| TYPE_DOUBLE
| TYPE_LONG_DOUBLE
| TYPE_POINTER
| TYPE_STRING
| TYPE_POINTER_SIGNED_INT8
| TYPE_POINTER_SHORT
| TYPE_POINTER_INT
| TYPE_POINTER_LONG
| TYPE_POINTER_LONG_LONG
| TYPE_POINTER_INTMAX_T
| TYPE_POINTER_SSIZE_T
| TYPE_POINTER_PTRDIFF_T
| TYPE_SIGNED_INT8
| TYPE_SHORT
| TYPE_INT
| TYPE_LONG
| TYPE_LONG_LONG
| TYPE_INTMAX_T
| TYPE_SSIZE_T
| TYPE_PTRDIFF_T
| TYPE_UINT8
| TYPE_USHORT
| TYPE_UINT
| TYPE_ULONG
| TYPE_ULONG_LONG
| TYPE_UINTMAX_T
| TYPE_SIZE_T
| TYPE_NONE.

(** [substr] is the [malloc]ed copy of the marker, as the C string that
    [strncpy] and the final [sub[len] = 0] leave there. *)
Record format_spec_t : Type := {
  substr : string;
  type : var_type
}.

(** ** The scanner: [find_format_specifiers] *)

(** [while (strchr("-+ #0", *p)) p++;] *)
Fixpoint skip_flags (p : ptr) : result ptr :=
  match p with
  | [] => Fault OutOfBounds
  | c :: q => if strchr "-+ #0" c then skip_flags q else Ok p
  end.

(** [while (isdigit( *p )) p++;] *)
Fixpoint skip_digits (p : ptr) : result ptr :=
  match p with
  | [] => Fault OutOfBounds
  | c :: q => if isdigit c then skip_digits q else Ok p
  end.

(** Width: one star, or a run of digits. *)
Definition skip_width (p : ptr) : result ptr :=
  do c <- deref p;
  if Ascii.eqb c "*" then Ok (tl p) else skip_digits p.

(** Precision: a dot, then one star or a run of digits. *)
Definition skip_precision (p : ptr) : result ptr :=
  do c <- deref p;
  if Ascii.eqb c "." then
    let q := tl p in
    do c' <- deref q;
    if Ascii.eqb c' "*" then Ok (tl q) else skip_digits q
  else Ok p.

(** Length: the bytes stored in [char length[3]] (the trailing zeros of the
    buffer left out) and the pointer behind the token. *)
Definition read_length (p : ptr) : result (list ascii * ptr) :=
  do c <- deref p;
  if strchr "hljztL" c then
    let q := tl p in
    do c' <- deref q;
    if (Ascii.eqb c' "h" || Ascii.eqb c' "l")
       && (Ascii.eqb c "h" || Ascii.eqb c "l")
    then Ok ([c; c'], tl q)
    else Ok ([c], q)
  else Ok ([], p).

(** The three tables that resolve an integer conversion through the length
    token, each with its final [else]. *)
Definition reference_type (len : list ascii) : var_type :=
  if strcmp_eq len "hh" then TYPE_POINTER_SIGNED_INT8
  else if strcmp_eq len "h" then TYPE_POINTER_SHORT
  else if strcmp_eq len "" then TYPE_POINTER_INT
  else if strcmp_eq len "l" then TYPE_POINTER_LONG
  else if strcmp_eq len "ll" then TYPE_POINTER_LONG_LONG
  else if strcmp_eq len "j" then TYPE_POINTER_INTMAX_T
  else if strcmp_eq len "z" then TYPE_POINTER_SSIZE_T
  else if strcmp_eq len "t" then TYPE_POINTER_PTRDIFF_T
  else TYPE_POINTER_INT.

Definition signed_type (len : list ascii) : var_type :=
  if strcmp_eq len "hh" then TYPE_SIGNED_INT8
  else if strcmp_eq len "h" then TYPE_SHORT
  else if strcmp_eq len "" then TYPE_INT
  else if strcmp_eq len "l" then TYPE_LONG
  else if strcmp_eq len "ll" then TYPE_LONG_LONG
  else if strcmp_eq len "j" then TYPE_INTMAX_T
  else if strcmp_eq len "z" then TYPE_SSIZE_T
  else if strcmp_eq len "t" then TYPE_PTRDIFF_T
  else TYPE_INT.

Definition unsigned_type (len : list ascii) : var_type :=
  if strcmp_eq len "hh" then TYPE_UINT8
  else if strcmp_eq len "h" then TYPE_USHORT
  else if strcmp_eq len "" then TYPE_UINT
  else if strcmp_eq len "l" then TYPE_ULONG
  else if strcmp_eq len "ll" then TYPE_ULONG_LONG
  else if strcmp_eq len "j" then TYPE_UINTMAX_T
  else if strcmp_eq len "z" then TYPE_SIZE_T
  else if strcmp_eq len "t" then TYPE_PTRDIFF_T
  else TYPE_UINT.

(** "Get type": [None] is the initial [-1] that no branch replaced. *)
Definition get_type (len : list ascii) (specifier : ascii) : option var_type :=
  if Ascii.eqb specifier "%" then Some TYPE_NONE
  else if Ascii.eqb specifier "p" then Some TYPE_POINTER
  else if Ascii.eqb specifier "c" then Some TYPE_INT
  else if Ascii.eqb specifier "s" then Some TYPE_STRING
  else if Ascii.eqb specifier "n" then Some (reference_type len)
  else if strchr "di" specifier then Some (signed_type len)
  else if strchr "ouxX" specifier then Some (unsigned_type len)
  else if strchr "eEfFgGaA" specifier then
    Some (if strcmp_eq len "L" then TYPE_LONG_DOUBLE else TYPE_DOUBLE)
  else None.

(** One marker, from the pointer [start] at its percent sign: the pointer
    where the scan goes on, and the entry if one is appended.  [malloc] and
    [realloc] are taken to succeed. *)
Definition scan_marker (start : ptr) : result (ptr * option format_spec_t) :=
  do p <- skip_flags (tl start);
  do p <- skip_width p;
  do p <- skip_precision p;
  do (len, p) <- read_length p;
  do specifier <- deref p;
  if strchr "diouxXeEfFgGaAcspn%" specifier then
    let p := tl p in
    let n := (length start - length p)%nat in
    let sub := string_of_list_ascii (c_str (firstn n start)) in
    match get_type len specifier with
    | Some ty => Ok (p, Some {| substr := sub; type := ty |})
    | None => Ok (p, None)
    end
  else Ok (p, None).

(** The loop [while ( *p )] of the scanner. *)
Fixpoint scan_loop (fuel : nat) (p : ptr) (specs : list format_spec_t)
  : result (list format_spec_t) :=
  match fuel with
  | O => Fault OutOfFuel
  | S fuel' =>
    do c <- deref p;
    if Ascii.eqb c NUL then Ok specs
    else if Ascii.eqb c "%" then
      do c1 <- deref (tl p);
      if Ascii.eqb c1 "%" then scan_loop fuel' (tl (tl p)) specs
      else
        do (p', entry) <- scan_marker p;
        match entry with
        | Some e => scan_loop fuel' p' (specs ++ [e])
        | None => scan_loop fuel' p' specs
        end
    else scan_loop fuel' (tl p) specs
  end.

(** A template is a [const char *]: [None] is the null pointer.  The scanner
    reads it without a null check.  Every turn of the loop moves [p] forward,
    so one more turn than the array has bytes is enough fuel
    ([scan_loop_fuel] below). *)
Definition find_format_specifiers (format : option string)
  : result (list format_spec_t) :=
  match format with
  | None => Fault NullDeref
  | Some s => let a := c_array s in scan_loop (S (length a)) a []
  end.

(** ** Arguments, display values and sinks *)

(** The C types that the drivers name in [va_arg]. *)
Inductive c_type : Type :=
| C_signed_char
| C_short
| C_int
| C_long
| C_long_long
| C_intmax_t
| C_ssize_t
| C_ptrdiff_t
| C_unsigned_int
| C_unsigned_long
| C_unsigned_long_long
| C_uintmax_t
| C_size_t
| C_double
| C_long_double
| C_void_ptr
| C_char_ptr.

Definition addr : Type := nat.
Definition stream : Type := nat.

(** [display_t].  A function pointer is [None] when null; a rendering
    function is known by what it does: the text it writes to its sink and the
    [int] it returns. *)
Record display_t : Type := {
  display_fn : option (addr -> string * Z);
  fdisplay_fn : option (addr -> stream -> string * Z);
  sndisplay_fn : option (addr -> nat -> string * Z);
  self : option addr
}.

(** One argument of the variadic list.  An integer argument is its value
    after the default promotions, a floating argument its bit pattern;
    [AOut l] points to the integer object [l]; [ADisplay None] is a null
    [display_t *]. *)
Inductive arg : Type :=
| AInt (z : Z)
| AFloat (bits : Z)
| APtr (a : Z)
| AStr (s : string)
| AOut (l : nat)
| ADisplay (d : option display_t).

(** What reaches a sink: a character from [putchar] or [putc], one call of
    the native formatter with the rule and the single argument it is given
    (and the type at which [va_arg] read it), the text a rendering function
    wrote. *)
Inductive event : Type :=
| EvChar (c : ascii)
| EvFormat (fmt : string) (t : c_type) (a : arg)
| EvDisplay (text : string).

(** The state of a driver run: the locals of the function, the argument
    cursor, the integer objects written through [%n] pointers (a log, oldest
    first), and the two sinks, standard output and the [FILE] of the call. *)
Record dstate : Type := {
  st_p : ptr;
  st_spec_idx : nat;
  st_spec_count : Z;
  st_struct_count : Z;
  st_args : list arg;
  st_mem : list (nat * Z);
  st_stdout : list event;
  st_file : list event
}.

Definition with_p (q : ptr) (st : dstate) : dstate :=
  {| st_p := q; st_spec_idx := st_spec_idx st;
     st_spec_count := st_spec_count st; st_struct_count := st_struct_count st;
     st_args := st_args st; st_mem := st_mem st;
     st_stdout := st_stdout st; st_file := st_file st |}.

Definition with_args (l : list arg) (st : dstate) : dstate :=
  {| st_p := st_p st; st_spec_idx := st_spec_idx st;
     st_spec_count := st_spec_count st; st_struct_count := st_struct_count st;
     st_args := l; st_mem := st_mem st;
     st_stdout := st_stdout st; st_file := st_file st |}.

(** [spec_idx++; spec_count++;] *)
Definition next_spec (st : dstate) : dstate :=
  {| st_p := st_p st; st_spec_idx := S (st_spec_idx st);
     st_spec_count := st_spec_count st + 1;
     st_struct_count := st_struct_count st;
     st_args := st_args st; st_mem := st_mem st;
     st_stdout := st_stdout st; st_file := st_file st |}.

(** [struct_count++;] *)
Definition next_struct (st : dstate) : dstate :=
  {| st_p := st_p st; st_spec_idx := st_spec_idx st;
     st_spec_count := st_spec_count st;
     st_struct_count := st_struct_count st + 1;
     st_args := st_args st; st_mem := st_mem st;
     st_stdout := st_stdout st; st_file := st_file st |}.

Definition to_stdout (e : event) (st : dstate) : dstate :=
  {| st_p := st_p st; st_spec_idx := st_spec_idx st;
     st_spec_count := st_spec_count st; st_struct_count := st_struct_count st;
     st_args := st_args st; st_mem := st_mem st;
     st_stdout := st_stdout st ++ [e]; st_file := st_file st |}.

Definition to_file (e : event) (st : dstate) : dstate :=
  {| st_p := st_p st; st_spec_idx := st_spec_idx st;
     st_spec_count := st_spec_count st; st_struct_count := st_struct_count st;
     st_args := st_args st; st_mem := st_mem st;
     st_stdout := st_stdout st; st_file := st_file st ++ [e] |}.

Definition write_mem (l : nat) (v : Z) (st : dstate) : dstate :=
  {| st_p := st_p st; st_spec_idx := st_spec_idx st;
     st_spec_count := st_spec_count st; st_struct_count := st_struct_count st;
     st_args := st_args st; st_mem := st_mem st ++ [(l, v)];
     st_stdout := st_stdout st; st_file := st_file st |}.

(** [va_arg(args, T)]: the next argument; none left is a fault. *)
Definition va_arg (st : dstate) : result (arg * dstate) :=
  match st_args st with
  | [] => Fault BadArg
  | a :: rest => Ok (a, with_args rest st)
  end.

(** The width in bits of the signed integer types that a [%n] pointer can
    point to (LP64). *)
Definition bits (t : c_type) : Z :=
  match t with
  | C_signed_char => 8
  | C_short => 16
  | C_int => 32
  | _ => 64
  end.

(** Conversion of an integer value to the signed type [t]: wrap-around into
    the range of [t]. *)
Definition convert (t : c_type) (v : Z) : Z :=
  (v + 2 ^ (bits t - 1)) mod 2 ^ bits t - 2 ^ (bits t - 1).

(** [*va_arg(args, T * ) = spec_count + struct_count;].  The counters are
    [int]s; they are bounded by the length of the template, which is taken to
    be below [INT_MAX], so their sum is computed in [Z]. *)
Definition store_count (t : c_type) (st : dstate) : result dstate :=
  do (a, st') <- va_arg st;
  match a with
  | AOut l =>
    Ok (write_mem l (convert t (st_spec_count st + st_struct_count st)) st')
  | _ => Fault BadArg
  end.

(** ** The driver to standard output: [display_vprint] *)

Definition putchar (c : ascii) (st : dstate) : dstate :=
  to_stdout (EvChar c) st.

(** [printf(fmt, va_arg(args, T));].  The argument is taken as it comes: the
    event keeps the type [T] that [va_arg] names beside the argument, and an
    argument of another kind, which C leaves undefined, shows there and not
    as a fault. *)
Definition printf (fmt : string) (t : c_type) (st : dstate) : result dstate :=
  do (a, st') <- va_arg st;
  Ok (to_stdout (EvFormat fmt t a) st').

(** The [switch] over the tag of the current entry. *)
Definition vprint_switch (e : format_spec_t) (st : dstate) : result dstate :=
  match type e with
  | TYPE_INT => printf (substr e) C_int st
  | TYPE_SIGNED_INT8 => printf (substr e) C_int st
  | TYPE_SHORT => printf (substr e) C_int st
  | TYPE_LONG => printf (substr e) C_long st
  | TYPE_LONG_LONG => printf (substr e) C_long_long st
  | TYPE_INTMAX_T => printf (substr e) C_intmax_t st
  | TYPE_SSIZE_T => printf (substr e) C_ssize_t st
  | TYPE_PTRDIFF_T => printf (substr e) C_ptrdiff_t st
  | TYPE_UINT => printf (substr e) C_unsigned_int st
  | TYPE_UINT8 => printf (substr e) C_unsigned_int st
  | TYPE_USHORT => printf (substr e) C_unsigned_int st
  | TYPE_ULONG => printf (substr e) C_unsigned_long st
  | TYPE_ULONG_LONG => printf (substr e) C_unsigned_long_long st
  | TYPE_UINTMAX_T => printf (substr e) C_uintmax_t st
  | TYPE_SIZE_T => printf (substr e) C_size_t st
  | TYPE_POINTER => printf (substr e) C_void_ptr st
  | TYPE_STRING => printf (substr e) C_char_ptr st
  | TYPE_POINTER_INT => store_count C_int st
  | TYPE_POINTER_SIGNED_INT8 => store_count C_signed_char st
  | TYPE_POINTER_SHORT => store_count C_short st
  | TYPE_POINTER_LONG => store_count C_long st
  | TYPE_POINTER_LONG_LONG => store_count C_long_long st
  | TYPE_POINTER_INTMAX_T => store_count C_intmax_t st
  | TYPE_POINTER_SSIZE_T => store_count C_ssize_t st
  | TYPE_POINTER_PTRDIFF_T => store_count C_ptrdiff_t st
  | TYPE_FLOAT => printf (substr e) C_double st
  | TYPE_DOUBLE => printf (substr e) C_double st
  | TYPE_LONG_DOUBLE => printf (substr e) C_long_double st
  | TYPE_NONE => Ok st
  end.

(** The branch of the opaque delimiter; [q] is the pointer behind it. *)
Definition vprint_display (q : ptr) (st : dstate) : result dstate :=
  do (a, st) <- va_arg st;
  match a with
  | ADisplay None => Ok (with_p q st)
  | ADisplay (Some d) =>
    match display_fn d, self d with
    | Some f, Some s =>
      let (text, r) := f s in
      let st := to_stdout (EvDisplay text) st in
      if r =? -1 then Ok (with_p q st)
      else Ok (next_struct (with_p q st))
    | _, _ => Ok (with_p q st)
    end
  | _ => Fault BadArg
  end.

(** One turn of the loop body, entered with [*p] not NUL. *)
Definition vprint_step (specs : list format_spec_t) (st : dstate)
  : result dstate :=
  match st_p st with
  | [] => Fault OutOfBounds
  | c :: q =>
    if Ascii.eqb c "%" then
      do c1 <- deref q;
      if negb (Ascii.eqb c1 "%") then
        match nth_error specs (st_spec_idx st) with
        | Some e =>
          do st <- vprint_switch e st;
          do p' <- advance (String.length (substr e)) (st_p st);
          Ok (next_spec (with_p p' st))
        | None => Ok (with_p q (putchar c st))
        end
      else Ok (with_p (tl q) (putchar "%" st))
    else if Ascii.eqb c "{" then
      do c1 <- deref q;
      if Ascii.eqb c1 "}" then vprint_display (tl q) st
      else Ok (with_p q (putchar c st))
    else Ok (with_p q (putchar c st))
  end.

Fixpoint vprint_loop (fuel : nat) (specs : list format_spec_t) (st : dstate)
  : result dstate :=
  match fuel with
  | O => Fault OutOfFuel
  | S fuel' =>
    do c <- deref (st_p st);
    if Ascii.eqb c NUL then Ok st
    else
      do st' <- vprint_step specs st;
      vprint_loop fuel' specs st'
  end.

(** The state at the head of the loop. *)
Definition init (p : ptr) (args : list arg) : dstate :=
  {| st_p := p; st_spec_idx := 0; st_spec_count := 0; st_struct_count := 0;
     st_args := args; st_mem := []; st_stdout := []; st_file := [] |}.

(** The value the call returns and the state it leaves. *)
Definition display_vprint (format : option string) (args : list arg)
  : result (Z * dstate) :=
  match format with
  | None => Ok (-1, init [] args)
  | Some s =>
    do specs <- find_format_specifiers format;
    do st <- vprint_loop (S (length (c_array s))) specs
               (init (c_array s) args);
    Ok (st_spec_count st + st_struct_count st, st)
  end.

(** ** The driver to a stream: [display_vfprint] *)

(** [putc(c, file)] *)
Definition putc (c : ascii) (st : dstate) : dstate :=
  to_file (EvChar c) st.

(** [fprintf(file, fmt, va_arg(args, T));], with the argument taken as it
    comes, as in [printf]. *)
Definition fprintf (fmt : string) (t : c_type) (st : dstate) : result dstate :=
  do (a, st') <- va_arg st;
  Ok (to_file (EvFormat fmt t a) st').

Definition vfprint_switch (e : format_spec_t) (st : dstate) : result dstate :=
  match type e with
  | TYPE_INT => fprintf (substr e) C_int st
  | TYPE_SIGNED_INT8 => fprintf (substr e) C_int st
  | TYPE_SHORT => fprintf (substr e) C_int st
  | TYPE_LONG => fprintf (substr e) C_long st
  | TYPE_LONG_LONG => fprintf (substr e) C_long_long st
  | TYPE_INTMAX_T => fprintf (substr e) C_intmax_t st
  | TYPE_SSIZE_T => fprintf (substr e) C_ssize_t st
  | TYPE_PTRDIFF_T => fprintf (substr e) C_ptrdiff_t st
  | TYPE_UINT => fprintf (substr e) C_unsigned_int st
  | TYPE_UINT8 => fprintf (substr e) C_unsigned_int st
  | TYPE_USHORT => fprintf (substr e) C_unsigned_int st
  | TYPE_ULONG => fprintf (substr e) C_unsigned_long st
  | TYPE_ULONG_LONG => fprintf (substr e) C_unsigned_long_long st
  | TYPE_UINTMAX_T => fprintf (substr e) C_uintmax_t st
  | TYPE_SIZE_T => fprintf (substr e) C_size_t st
  | TYPE_POINTER => fprintf (substr e) C_void_ptr st
  | TYPE_STRING => fprintf (substr e) C_char_ptr st
  | TYPE_POINTER_INT => store_count C_int st
  | TYPE_POINTER_SIGNED_INT8 => store_count C_signed_char st
  | TYPE_POINTER_SHORT => store_count C_short st
  | TYPE_POINTER_LONG => store_count C_long st
  | TYPE_POINTER_LONG_LONG => store_count C_long_long st
  | TYPE_POINTER_INTMAX_T => store_count C_intmax_t st
  | TYPE_POINTER_SSIZE_T => store_count C_ssize_t st
  | TYPE_POINTER_PTRDIFF_T => store_count C_ptrdiff_t st
  | TYPE_FLOAT => fprintf (substr e) C_double st
  | TYPE_DOUBLE => fprintf (substr e) C_double st
  | TYPE_LONG_DOUBLE => fprintf (substr e) C_long_double st
  | TYPE_NONE => Ok st
  end.

Definition vfprint_display (file : stream) (q : ptr) (st : dstate)
  : result dstate :=
  do (a, st) <- va_arg st;
  match a with
  | ADisplay None => Ok (with_p q st)
  | ADisplay (Some d) =>
    match fdisplay_fn d, self d with
    | Some f, Some s =>
      let (text, r) := f s file in
      let st := to_file (EvDisplay text) st in
      if r =? -1 then Ok (with_p q st)
      else Ok (next_struct (with_p q st))
    | _, _ => Ok (with_p q st)
    end
  | _ => Fault BadArg
  end.

Definition vfprint_step (file : stream) (specs : list format_spec_t)
  (st : dstate) : result dstate :=
  match st_p st with
  | [] => Fault OutOfBounds
  | c :: q =>
    if Ascii.eqb c "%" then
      do c1 <- deref q;
      if negb (Ascii.eqb c1 "%") then
        match nth_error specs (st_spec_idx st) with
        | Some e =>
          do st <- vfprint_switch e st;
          do p' <- advance (String.length (substr e)) (st_p st);
          Ok (next_spec (with_p p' st))
        | None => Ok (with_p q (putc c st))
        end
      else Ok (with_p (tl q) (putc "%" st))
    else if Ascii.eqb c "{" then
      do c1 <- deref q;
      if Ascii.eqb c1 "}" then vfprint_display file (tl q) st
      else Ok (with_p q (putc c st))
    else Ok (with_p q (putc c st))
  end.

Fixpoint vfprint_loop (fuel : nat) (file : stream)
  (specs : list format_spec_t) (st : dstate) : result dstate :=
  match fuel with
  | O => Fault OutOfFuel
  | S fuel' =>
    do c <- deref (st_p st);
    if Ascii.eqb c NUL then Ok st
    else
      do st' <- vfprint_step file specs st;
      vfprint_loop fuel' file specs st'
  end.

(** [file] is a [FILE *]: [None] is the null pointer. *)
Definition display_vfprint (file : option stream) (format : option string)
  (args : list arg) : result (Z * dstate) :=
  match format, file with
  | Some s, Some f =>
    do specs <- find_format_specifiers format;
    do st <- vfprint_loop (S (length (c_array s))) f specs
               (init (c_array s) args);
    Ok (st_spec_count st + st_struct_count st, st)
  | _, _ => Ok (-1, init [] args)
  end.

(** ** The text of a sink *)

Section Native.

(** The native formatter of the C library, as far as the drivers use it:
    the text that one formatting rule gives for one argument read at one
    type. *)
Variable native : string -> c_type -> arg -> string.

Definition event_text (e : event) : string :=
  match e with
  | EvChar c => String c EmptyString
  | EvFormat fmt t a => native fmt t a
  | EvDisplay text => text
  end.

Definition sink_text (evs : list event) : string :=
  fold_right (fun e acc => event_text e ++ acc)%string EmptyString evs.

End Native.

(** A formatter that knows the two plain rules ["%d"] and ["%s"], to run the
    drivers on examples. *)
Definition plain_native (fmt : string) (t : c_type) (a : arg) : string :=
  match a with
  | AInt z =>
    if String.eqb fmt "%d" then NilZero.string_of_int (Z.to_int z)
    else EmptyString
  | AStr s => if String.eqb fmt "%s" then s else EmptyString
  | _ => EmptyString
  end.

Definition spec (s : string) (t : var_type) : format_spec_t :=
  {| substr := s; type := t |}.



(** ** The line variants and the variadic entry points *)

(** The line terminator ['\n']. *)
Definition newline : ascii := "010"%char.

(** [display_vprintln]: the render, then [putchar('\n')] unless the render
    returned -1. *)
Definition display_vprintln (format : option string) (args : list arg)
  : result (Z * dstate) :=
  do (result, st) <- display_vprint format args;
  if negb (result =? -1) then Ok (result, putchar newline st)
  else Ok (result, st).

(** [display_vfprintln]: the same with [putc('\n', file)]. *)
Definition display_vfprintln (file : option stream) (format : option string)
  (args : list arg) : result (Z * dstate) :=
  do (result, st) <- display_vfprint file format args;
  if negb (result =? -1) then Ok (result, putc newline st)
  else Ok (result, st).

(** The variadic entry points: [va_start] makes the cursor of the arguments
    behind [format], here the list [args]; [va_end] releases it. *)
Definition display_print (format : option string) (args : list arg)
  : result (Z * dstate) :=
  display_vprint format args.

Definition display_println (format : option string) (args : list arg)
  : result (Z * dstate) :=
  display_vprintln format args.

Definition display_fprint (file : option stream) (format : option string)
  (args : list arg) : result (Z * dstate) :=
  display_vfprint file format args.

Definition display_fprintln (file : option stream) (format : option string)
  (args : list arg) : result (Z * dstate) :=
  display_vfprintln file format args.

(** ** Templates made of tokens *)

(** A conversion marker by its parts: flags, width, precision (with its dot;
    [None] when absent), length token and conversion letter. *)
Record marker : Type := {
  m_flags : list ascii;
  m_width : list ascii;
  m_prec : option (list ascii);
  m_length : list ascii;
  m_conv : ascii
}.

Definition chars (s : string) : list ascii := list_ascii_of_string s.

Definition is_flag (c : ascii) : bool :=
  existsb (Ascii.eqb c) (chars "-+ #0").

(** A run of digits or one star. *)
Definition digits_or_star (w : list ascii) : bool :=
  list_ascii_eqb w (chars "*") || forallb isdigit w.

(** A width: nothing, one star, or digits; a leading zero is a flag and
    belongs to [m_flags]. *)
Definition width_ok (w : list ascii) : bool :=
  digits_or_star w &&
  match w with
  | c :: _ => negb (Ascii.eqb c "0")
  | [] => true
  end.

Definition prec_ok (p : option (list ascii)) : bool :=
  match p with
  | None => true
  | Some d => digits_or_star d
  end.

Definition length_ok (l : list ascii) : bool :=
  existsb (list_ascii_eqb l)
    [chars ""; chars "hh"; chars "h"; chars "l"; chars "ll";
     chars "j"; chars "z"; chars "t"; chars "L"].

Definition conv_ok (c : ascii) : bool :=
  existsb (Ascii.eqb c) (chars "diouxXeEfFgGaAcspn").

(** The markers of the grammar
    [%[flags][width][.precision][length]conversion]. *)
Definition marker_ok (m : marker) : bool :=
  forallb is_flag (m_flags m) && width_ok (m_width m) && prec_ok (m_prec m)
  && length_ok (m_length m) && conv_ok (m_conv m).

Definition prec_text (p : option (list ascii)) : list ascii :=
  match p with
  | None => []
  | Some d => "."%char :: d
  end.

Definition marker_text (m : marker) : list ascii :=
  "%"%char :: m_flags m ++ m_width m ++ prec_text (m_prec m)
              ++ m_length m ++ [m_conv m].

(** The entry of a marker: its text, and the tag the table gives for its
    length token and conversion letter. *)
Definition marker_entry (m : marker) : format_spec_t :=
  {| substr := string_of_list_ascii (marker_text m);
     type := match get_type (m_length m) (m_conv m) with
             | Some t => t
             | None => TYPE_NONE
             end |}.

(** The pieces of a template: an ordinary character, the escape ["%%"], a
    marker, the opaque delimiter ["{}"]. *)
Inductive token : Type :=
| TLit (c : ascii)
| TPercent
| TMarker (m : marker)
| TOpaque.

Definition token_text (t : token) : list ascii :=
  match t with
  | TLit c => [c]
  | TPercent => chars "%%"
  | TMarker m => marker_text m
  | TOpaque => chars "{}"
  end.

Definition tokens_text (toks : list token) : list ascii :=
  flat_map token_text toks.

Definition template_of (toks : list token) : string :=
  string_of_list_ascii (tokens_text toks).

(** The next token is a closing brace. *)
Definition begins_with_close (toks : list token) : bool :=
  match toks with
  | TLit c :: _ => Ascii.eqb c "}"
  | _ => false
  end.

(** Token lists that read back as themselves: an ordinary character is
    neither a percent sign nor NUL, an opening brace is not followed by a
    closing one, and every marker is one of the grammar. *)
Fixpoint tokens_ok (toks : list token) : bool :=
  match toks with
  | [] => true
  | t :: rest =>
    match t with
    | TLit c =>
      negb (Ascii.eqb c "%") && negb (Ascii.eqb c NUL)
      && negb (Ascii.eqb c "{" && begins_with_close rest)
    | TPercent => true
    | TMarker m => marker_ok m
    | TOpaque => true
    end && tokens_ok rest
  end.

Definition token_entries (t : token) : list format_spec_t :=
  match t with
  | TMarker m => [marker_entry m]
  | _ => []
  end.

(** The entries of the markers, in template order. *)
Definition entries (toks : list token) : list format_spec_t :=
  flat_map token_entries toks.

(** What one token does to the run, read off the token alone: the position
    moves behind the token, a character or the escape is written, a marker
    goes through the [switch] with its own entry, the delimiter through the
    opaque branch. *)
Definition token_step (t : token) (st : dstate) : result dstate :=
  let q := skipn (length (token_text t)) (st_p st) in
  match t with
  | TLit c => Ok (with_p q (putchar c st))
  | TPercent => Ok (with_p q (putchar "%" st))
  | TMarker m =>
    do st1 <- vprint_switch (marker_entry m) st;
    Ok (next_spec (with_p q st1))
  | TOpaque => vprint_display q st
  end.

Fixpoint run_tokens (toks : list token) (st : dstate) : result dstate :=
  match toks with
  | [] => Ok st
  | t :: rest => do st' <- token_step t st; run_tokens rest st'
  end.

(** The same for the stream sink. *)
Definition ftoken_step (file : stream) (t : token) (st : dstate)
  : result dstate :=
  let q := skipn (length (token_text t)) (st_p st) in
  match t with
  | TLit c => Ok (with_p q (putc c st))
  | TPercent => Ok (with_p q (putc "%" st))
  | TMarker m =>
    do st1 <- vfprint_switch (marker_entry m) st;
    Ok (next_spec (with_p q st1))
  | TOpaque => vfprint_display file q st
  end.

Fixpoint frun_tokens (file : stream) (toks : list token) (st : dstate)
  : result dstate :=
  match toks with
  | [] => Ok st
  | t :: rest => do st' <- ftoken_step file t st; frun_tokens file rest st'
  end.

(** A marker for the examples: ["%-5.2ld"]. *)
Definition example_marker : marker :=
  {| m_flags := chars "-"; m_width := chars "5";
     m_prec := Some (chars "2"); m_length := chars "l"; m_conv := "d" |}.

(** ** Vocabulary of the statements *)

Definition nonempty_substr (e : format_spec_t) : Prop :=
  (1 <= String.length (substr e))%nat.

(** The write-count tags, those of the [%n] conversions, with the type their
    pointer points to. *)
Definition write_count_tag (t : var_type) : option c_type :=
  match t with
  | TYPE_POINTER_SIGNED_INT8 => Some C_signed_char
  | TYPE_POINTER_SHORT => Some C_short
  | TYPE_POINTER_INT => Some C_int
  | TYPE_POINTER_LONG => Some C_long
  | TYPE_POINTER_LONG_LONG => Some C_long_long
  | TYPE_POINTER_INTMAX_T => Some C_intmax_t
  | TYPE_POINTER_SSIZE_T => Some C_ssize_t
  | TYPE_POINTER_PTRDIFF_T => Some C_ptrdiff_t
  | _ => None
  end.





(** What one turn at the opaque delimiter does, from [st] to [st'], with the
    display value [d] read from the cursor: [sink] is the active sink and
    [fn] the capability that goes with it. *)
Definition opaque_field (sink : dstate -> list event)
  (fn : display_t -> option (addr -> string * Z))
  (d : option display_t) (q : ptr) (rest : list arg) (st st' : dstate)
  : Prop :=
  st_p st' = q /\ st_args st' = rest /\
  st_spec_idx st' = st_spec_idx st /\
  st_spec_count st' = st_spec_count st /\
  st_mem st' = st_mem st /\
  ((d = None \/
    (exists dv, d = Some dv /\ (fn dv = None \/ self dv = None))) ->
   sink st' = sink st /\ st_struct_count st' = st_struct_count st) /\
  (forall dv f s,
     d = Some dv -> fn dv = Some f -> self dv = Some s ->
     sink st' = sink st ++ [EvDisplay (fst (f s))] /\
     (snd (f s) = -1 -> st_struct_count st' = st_struct_count st) /\
     (snd (f s) <> -1 -> st_struct_count st' = st_struct_count st + 1)).

(** The capability for a stream, with the stream filled in. *)
Definition fdisplay_on (file : stream) (d : display_t)
  : option (addr -> string * Z) :=
  match fdisplay_fn d with
  | Some g => Some (fun s => g s file)
  | None => None
  end.

(** Display values for the examples: one that writes ["OK"] and returns the
    number of characters on every sink, and one that writes ["X"] and then
    reports failure. *)
Definition ok_display : display_t :=
  {| display_fn := Some (fun _ => ("OK", 2));
     fdisplay_fn := Some (fun _ _ => ("OK", 2));
     sndisplay_fn := Some (fun _ _ => ("OK", 2));
     self := Some 1%nat |}.

Definition failing_display : display_t :=
  {| display_fn := Some (fun _ => ("X", -1));
     fdisplay_fn := Some (fun _ _ => ("X", -1));
     sndisplay_fn := None;
     self := Some 1%nat |}.

(** [n] copies of a string in a row. *)
Fixpoint copies (n : nat) (s : string) : string :=
  match n with
  | O => EmptyString
  | S n' => (s ++ copies n' s)%string
  end.






(** ** Vocabulary of the further statements *)

(** A text without percent sign, without NUL and without the delimiter
    ["{}"]. *)
Fixpoint plain_text (l : list ascii) : bool :=
  match l with
  | [] => true
  | c :: rest =>
    negb (Ascii.eqb c "%") && negb (Ascii.eqb c NUL)
    && negb (Ascii.eqb c "{"
             && match rest with
                | c' :: _ => Ascii.eqb c' "}"
                | [] => false
                end)
    && plain_text rest
  end.

(** A list of entries without write-count tag. *)
Definition no_write_count (specs : list format_spec_t) : Prop :=
  Forall (fun e => write_count_tag (type e) = None) specs.

(** What every entry of the scanner looks like: its substring begins with
    the percent sign and its tag is not [TYPE_FLOAT]. *)
Definition entry_shape (e : format_spec_t) : Prop :=
  type e <> TYPE_FLOAT /\ exists rest, substr e = String "%" rest.

(** The arguments a token asks for: one for a marker, one for the
    delimiter. *)
Definition token_arguments (t : token) : nat :=
  match t with
  | TMarker _ | TOpaque => 1
  | _ => 0
  end.

Definition arguments_of (toks : list token) : nat :=
  list_sum (map token_arguments toks).

Definition token_opaque (t : token) : nat :=
  match t with
  | TOpaque => 1
  | _ => 0
  end.

(** The number of delimiters in a token list. *)
Definition opaque_of (toks : list token) : nat :=
  list_sum (map token_opaque toks).

(** A token list for the examples: the template ["a%%%-5.2ld{{}}"]. *)
Definition example_tokens : list token :=
  [TLit "a"; TPercent; TMarker example_marker; TLit "{"; TOpaque; TLit "}"].

Definition example_args : list arg :=
  [AInt 7; ADisplay (Some ok_display)].

(** * Properties *)

(** ** The scanner moves forward and stops *)

Lemma skip_flags_length (p q : ptr) :
  skip_flags p = Ok q -> (length q <= length p)%nat.
Proof.
  revert q; induction p as [|c p IH]; simpl; intros q H; [discriminate|].
  destruct (strchr "-+ #0" c).
  - apply IH in H; lia.
  - injection H as <-; simpl; lia.
Qed.

Lemma skip_digits_length (p q : ptr) :
  skip_digits p = Ok q -> (length q <= length p)%nat.
Proof.
  revert q; induction p as [|c p IH]; simpl; intros q H; [discriminate|].
  destruct (isdigit c).
  - apply IH in H; lia.
  - injection H as <-; simpl; lia.
Qed.

Lemma skip_width_length (p q : ptr) :
  skip_width p = Ok q -> (length q <= length p)%nat.
Proof.
  unfold skip_width; destruct p as [|c p]; simpl; [discriminate|].
  destruct (Ascii.eqb c "*"); intro H.
  - injection H as <-; lia.
  - apply (skip_digits_length (c :: p)); exact H.
Qed.

Lemma skip_precision_length (p q : ptr) :
  skip_precision p = Ok q -> (length q <= length p)%nat.
Proof.
  unfold skip_precision; destruct p as [|c p]; simpl; [discriminate|].
  destruct (Ascii.eqb c ".").
  - destruct p as [|c' p]; simpl; [discriminate|].
    destruct (Ascii.eqb c' "*"); intro H.
    + injection H as <-; lia.
    + apply (skip_digits_length (c' :: p)) in H; simpl in H; lia.
  - intro H; injection H as <-; simpl; lia.
Qed.

Lemma read_length_length (p q : ptr) (len : list ascii) :
  read_length p = Ok (len, q) -> (length q <= length p)%nat.
Proof.
  unfold read_length; destruct p as [|c p]; simpl; [discriminate|].
  destruct (strchr "hljztL" c).
  - destruct p as [|c' p]; simpl; [discriminate|].
    destruct ((Ascii.eqb c' "h" || Ascii.eqb c' "l")
              && (Ascii.eqb c "h" || Ascii.eqb c "l"));
      intro H; injection H as <- <-; simpl; lia.
  - intro H; injection H as <- <-; simpl; lia.
Qed.

(** The faults of the scanner's pieces are reads out of bounds. *)
Lemma skip_flags_fault (p : ptr) (f : fault) :
  skip_flags p = Fault f -> f = OutOfBounds.
Proof.
  induction p as [|c p IH]; simpl; intro H; [congruence|].
  destruct (strchr "-+ #0" c); [auto | discriminate].
Qed.

Lemma skip_digits_fault (p : ptr) (f : fault) :
  skip_digits p = Fault f -> f = OutOfBounds.
Proof.
  induction p as [|c p IH]; simpl; intro H; [congruence|].
  destruct (isdigit c); [auto | discriminate].
Qed.

Lemma skip_width_fault (p : ptr) (f : fault) :
  skip_width p = Fault f -> f = OutOfBounds.
Proof.
  unfold skip_width; destruct p as [|c p]; simpl; [congruence|].
  destruct (Ascii.eqb c "*"); [discriminate|].
  apply (skip_digits_fault (c :: p)).
Qed.

Lemma skip_precision_fault (p : ptr) (f : fault) :
  skip_precision p = Fault f -> f = OutOfBounds.
Proof.
  unfold skip_precision; destruct p as [|c p]; simpl; [congruence|].
  destruct (Ascii.eqb c "."); [|discriminate].
  destruct p as [|c' p]; simpl; [congruence|].
  destruct (Ascii.eqb c' "*"); [discriminate|].
  apply (skip_digits_fault (c' :: p)).
Qed.

Lemma read_length_fault (p : ptr) (f : fault) :
  read_length p = Fault f -> f = OutOfBounds.
Proof.
  unfold read_length; destruct p as [|c p]; simpl; [congruence|].
  destruct (strchr "hljztL" c); [|discriminate].
  destruct p as [|c' p]; simpl; [congruence|].
  destruct ((Ascii.eqb c' "h" || Ascii.eqb c' "l")
            && (Ascii.eqb c "h" || Ascii.eqb c "l")); discriminate.
Qed.

Lemma scan_marker_fault (start : ptr) (f : fault) :
  scan_marker start = Fault f -> f = OutOfBounds.
Proof.
  unfold scan_marker.
  destruct (skip_flags (tl start)) as [p1|f1] eqn:E1; simpl;
    [|intro H; injection H as <-; eauto using skip_flags_fault].
  destruct (skip_width p1) as [p2|f2] eqn:E2; simpl;
    [|intro H; injection H as <-; eauto using skip_width_fault].
  destruct (skip_precision p2) as [p3|f3] eqn:E3; simpl;
    [|intro H; injection H as <-; eauto using skip_precision_fault].
  destruct (read_length p3) as [[len p4]|f4] eqn:E4; simpl;
    [|intro H; injection H as <-; eauto using read_length_fault].
  destruct p4 as [|c p5]; simpl; [congruence|].
  destruct (strchr "diouxXeEfFgGaAcspn%" c); [|discriminate].
  destruct (get_type len c); discriminate.
Qed.

(** What a marker leaves: the scan goes on behind the percent sign at
    least, and an entry holds the percent sign and more. *)
Lemma scan_marker_Ok (q p : ptr) (entry : option format_spec_t) :
  scan_marker ("%"%char :: q) = Ok (p, entry) ->
  (length p <= length q)%nat /\
  (forall e, entry = Some e -> (1 <= String.length (substr e))%nat).
Proof.
  unfold scan_marker; simpl tl.
  destruct (skip_flags q) as [p1|] eqn:E1; simpl; [|discriminate].
  destruct (skip_width p1) as [p2|] eqn:E2; simpl; [|discriminate].
  destruct (skip_precision p2) as [p3|] eqn:E3; simpl; [|discriminate].
  destruct (read_length p3) as [[len p4]|] eqn:E4; simpl; [|discriminate].
  apply skip_flags_length in E1. apply skip_width_length in E2.
  apply skip_precision_length in E3. apply read_length_length in E4.
  destruct p4 as [|c p5]; cbn [deref bind tl length]; [discriminate|].
  simpl in E4.
  destruct (strchr "diouxXeEfFgGaAcspn%" c).
  - assert (Hn : exists m, (S (length q) - length p5 = S m)%nat)
      by (exists (length q - length p5)%nat; lia).
    destruct Hn as [m Hm].
    change (match length p5 with
            | O => S (length q)
            | S l => length q - l
            end)%nat with (S (length q) - length p5)%nat.
    rewrite Hm. simpl.
    destruct (get_type len c); intro H; injection H as <- <-;
      (split; [lia|]); intros e He; [|discriminate].
    injection He as <-; simpl; lia.
  - intro H; injection H as <- <-; split; [simpl; lia | discriminate].
Qed.

Lemma scan_loop_fuel (fuel : nat) (p : ptr) (specs : list format_spec_t) :
  (length p < fuel)%nat -> scan_loop fuel p specs <> Fault OutOfFuel.
Proof.
  revert p specs; induction fuel as [|fuel IH]; intros p specs Hlen; [lia|].
  simpl. destruct p as [|c q]; simpl; [discriminate|].
  destruct (Ascii.eqb c NUL); [discriminate|].
  destruct (Ascii.eqb c "%") eqn:Ec; [|apply IH; simpl in Hlen; lia].
  apply Ascii.eqb_eq in Ec; subst c.
  destruct q as [|c1 q']; simpl; [discriminate|].
  destruct (Ascii.eqb c1 "%"); [apply IH; simpl in Hlen; lia|].
  destruct (scan_marker ("%"%char :: c1 :: q')) as [[p' entry]|f] eqn:E; simpl.
  - apply scan_marker_Ok in E. destruct E as [Hp _].
    simpl in Hp, Hlen. destruct entry; apply IH; lia.
  - apply scan_marker_fault in E; subst f; discriminate.
Qed.

Lemma scan_loop_substr (fuel : nat) (p : ptr)
  (specs specs' : list format_spec_t) :
  Forall nonempty_substr specs ->
  scan_loop fuel p specs = Ok specs' ->
  Forall nonempty_substr specs'.
Proof.
  revert p specs; induction fuel as [|fuel IH]; intros p specs Hs;
    simpl; [discriminate|].
  destruct p as [|c q]; simpl; [discriminate|].
  destruct (Ascii.eqb c NUL); [intro H; injection H as <-; exact Hs|].
  destruct (Ascii.eqb c "%") eqn:Ec; [|apply IH; exact Hs].
  apply Ascii.eqb_eq in Ec; subst c.
  destruct q as [|c1 q']; simpl; [discriminate|].
  destruct (Ascii.eqb c1 "%"); [apply IH; exact Hs|].
  destruct (scan_marker ("%"%char :: c1 :: q')) as [[p' entry]|f] eqn:E;
    simpl; [|discriminate].
  apply scan_marker_Ok in E. destruct E as [_ He].
  destruct entry as [e|]; apply IH; [|exact Hs].
  apply Forall_app; split; [exact Hs|].
  constructor; [apply He; reflexivity | constructor].
Qed.

(** The scanner returns on every template. *)
Theorem find_format_specifiers_terminates (s : string) :
  find_format_specifiers (Some s) <> Fault OutOfFuel.
Proof.
  unfold find_format_specifiers. apply scan_loop_fuel. lia.
Qed.

Lemma find_format_specifiers_substr (format : option string)
  (specs : list format_spec_t) :
  find_format_specifiers format = Ok specs -> Forall nonempty_substr specs.
Proof.
  destruct format as [s|]; unfold find_format_specifiers; [|discriminate].
  apply scan_loop_substr. constructor.
Qed.

(** C1: a template that ends inside a conversion marker makes the scanner
    read behind the terminator.  On ["%"], ["%-"] and ["%5"] the flag
    loop and the length test take the terminating NUL for one of their
    characters ([strchr] finds NUL in every string), step over it and read
    the next byte; a malformed marker inside the template, as in ["%q"], is
    dropped without an entry and without a fault. *)
Theorem C1_scanner_reads_behind_terminator :
  find_format_specifiers (Some "%") = Fault OutOfBounds /\
  find_format_specifiers (Some "%-") = Fault OutOfBounds /\
  find_format_specifiers (Some "%5") = Fault OutOfBounds /\
  find_format_specifiers (Some "%q") = Ok [].
Proof. repeat split; vm_compute; reflexivity. Qed.

(** C3: the scanner takes the mixed pairs [hl] and [lh] for a length token:
    the second character is accepted when each of the two is an [h] or an
    [l], equal or not.  The markers ["%hld"] and ["%lhd"] become entries,
    resolved by the final [else] of the table to [TYPE_INT]. *)
Theorem C3_mixed_length_token_accepted :
  read_length (c_array "hld") = Ok (["h"; "l"]%char, c_array "d") /\
  read_length (c_array "lhd") = Ok (["l"; "h"]%char, c_array "d") /\
  find_format_specifiers (Some "%hld") = Ok [spec "%hld" TYPE_INT] /\
  find_format_specifiers (Some "%lhd") = Ok [spec "%lhd" TYPE_INT].
Proof. repeat split; vm_compute; reflexivity. Qed.

(** ** The drivers move forward and stop *)


Lemma printf_p (fmt : string) (t : c_type) (st st' : dstate) :
  printf fmt t st = Ok st' -> st_p st' = st_p st.
Proof.
  unfold printf, va_arg. destruct (st_args st); simpl; [discriminate|].
  intro H; injection H as <-; reflexivity.
Qed.

Lemma fprintf_p (fmt : string) (t : c_type) (st st' : dstate) :
  fprintf fmt t st = Ok st' -> st_p st' = st_p st.
Proof.
  unfold fprintf, va_arg. destruct (st_args st); simpl; [discriminate|].
  intro H; injection H as <-; reflexivity.
Qed.

Lemma store_count_p (t : c_type) (st st' : dstate) :
  store_count t st = Ok st' -> st_p st' = st_p st.
Proof.
  unfold store_count, va_arg.
  destruct (st_args st) as [|a rest]; simpl; [discriminate|].
  destruct a; try discriminate. intro H; injection H as <-; reflexivity.
Qed.

Lemma vprint_switch_p (e : format_spec_t) (st st' : dstate) :
  vprint_switch e st = Ok st' -> st_p st' = st_p st.
Proof.
  unfold vprint_switch; destruct (type e);
    eauto using printf_p, store_count_p.
  intro H; injection H as <-; reflexivity.
Qed.

Lemma vfprint_switch_p (e : format_spec_t) (st st' : dstate) :
  vfprint_switch e st = Ok st' -> st_p st' = st_p st.
Proof.
  unfold vfprint_switch; destruct (type e);
    eauto using fprintf_p, store_count_p.
  intro H; injection H as <-; reflexivity.
Qed.

Lemma advance_Ok (n : nat) (p p' : ptr) :
  advance n p = Ok p' -> (n <= length p)%nat /\ p' = skipn n p.
Proof.
  unfold advance. destruct (n <=? length p)%nat eqn:E; [|discriminate].
  apply Nat.leb_le in E. intro H; injection H as <-. split; [exact E|reflexivity].
Qed.

Lemma vprint_display_p (q : ptr) (st st' : dstate) :
  vprint_display q st = Ok st' -> st_p st' = q.
Proof.
  unfold vprint_display, va_arg.
  destruct (st_args st) as [|a rest]; simpl; [discriminate|].
  destruct a as [| | | | |[d|]]; try discriminate.
  - destruct (display_fn d) as [f|], (self d) as [s|];
      try (intro H; injection H as <-; reflexivity).
    destruct (f s) as [text r]. destruct (r =? -1);
      intro H; injection H as <-; reflexivity.
  - intro H; injection H as <-; reflexivity.
Qed.

Lemma vfprint_display_p (file : stream) (q : ptr) (st st' : dstate) :
  vfprint_display file q st = Ok st' -> st_p st' = q.
Proof.
  unfold vfprint_display, va_arg.
  destruct (st_args st) as [|a rest]; simpl; [discriminate|].
  destruct a as [| | | | |[d|]]; try discriminate.
  - destruct (fdisplay_fn d) as [f|], (self d) as [s|];
      try (intro H; injection H as <-; reflexivity).
    destruct (f s file) as [text r]. destruct (r =? -1);
      intro H; injection H as <-; reflexivity.
  - intro H; injection H as <-; reflexivity.
Qed.

(** One turn of either loop leaves a strictly shorter rest of the template,
    as long as no entry has an empty substring. *)
Lemma vprint_step_length (specs : list format_spec_t) (st st' : dstate) :
  Forall nonempty_substr specs ->
  vprint_step specs st = Ok st' ->
  (length (st_p st') < length (st_p st))%nat.
Proof.
  intros Hs. unfold vprint_step.
  destruct (st_p st) as [|c q] eqn:Ep; [discriminate|].
  destruct (Ascii.eqb c "%").
  - destruct q as [|c1 q']; simpl; [discriminate|].
    destruct (Ascii.eqb c1 "%"); simpl.
    + intro H; injection H as <-; simpl; lia.
    + destruct (nth_error specs (st_spec_idx st)) as [e|] eqn:En.
      * destruct (vprint_switch e st) as [st1|] eqn:E1; simpl; [|discriminate].
        apply vprint_switch_p in E1.
        destruct (advance (String.length (substr e)) (st_p st1)) as [p'|] eqn:Ea;
          simpl; [|discriminate].
        apply advance_Ok in Ea. destruct Ea as [Hle ->].
        intro H; injection H as <-. cbn [st_p next_spec with_p].
        rewrite length_skipn, E1, Ep. rewrite E1, Ep in Hle.
        apply nth_error_In in En.
        rewrite Forall_forall in Hs. specialize (Hs e En).
        unfold nonempty_substr in Hs. cbn [length] in *. lia.
      * intro H; injection H as <-; simpl; lia.
  - destruct (Ascii.eqb c "{").
    + destruct q as [|c1 q']; simpl; [discriminate|].
      destruct (Ascii.eqb c1 "}").
      * intro H; apply vprint_display_p in H. rewrite H; simpl; lia.
      * intro H; injection H as <-; simpl; lia.
    + intro H; injection H as <-; simpl; lia.
Qed.

Lemma vfprint_step_length (file : stream) (specs : list format_spec_t)
  (st st' : dstate) :
  Forall nonempty_substr specs ->
  vfprint_step file specs st = Ok st' ->
  (length (st_p st') < length (st_p st))%nat.
Proof.
  intros Hs. unfold vfprint_step.
  destruct (st_p st) as [|c q] eqn:Ep; [discriminate|].
  destruct (Ascii.eqb c "%").
  - destruct q as [|c1 q']; simpl; [discriminate|].
    destruct (Ascii.eqb c1 "%"); simpl.
    + intro H; injection H as <-; simpl; lia.
    + destruct (nth_error specs (st_spec_idx st)) as [e|] eqn:En.
      * destruct (vfprint_switch e st) as [st1|] eqn:E1; simpl; [|discriminate].
        apply vfprint_switch_p in E1.
        destruct (advance (String.length (substr e)) (st_p st1)) as [p'|] eqn:Ea;
          simpl; [|discriminate].
        apply advance_Ok in Ea. destruct Ea as [Hle ->].
        intro H; injection H as <-. cbn [st_p next_spec with_p].
        rewrite length_skipn, E1, Ep. rewrite E1, Ep in Hle.
        apply nth_error_In in En.
        rewrite Forall_forall in Hs. specialize (Hs e En).
        unfold nonempty_substr in Hs. cbn [length] in *. lia.
      * intro H; injection H as <-; simpl; lia.
  - destruct (Ascii.eqb c "{").
    + destruct q as [|c1 q']; simpl; [discriminate|].
      destruct (Ascii.eqb c1 "}").
      * intro H; apply vfprint_display_p in H. rewrite H; simpl; lia.
      * intro H; injection H as <-; simpl; lia.
    + intro H; injection H as <-; simpl; lia.
Qed.

(** Case analysis on the scrutinee of an innermost [match] of the goal. *)
Ltac break_match :=
  match goal with
  | |- context [match ?x with _ => _ end] =>
    lazymatch x with
    | context [match _ with _ => _ end] => fail
    | _ => destruct x eqn:?
    end
  end.

Lemma vprint_switch_fault (e : format_spec_t) (st : dstate) :
  vprint_switch e st <> Fault OutOfFuel.
Proof.
  unfold vprint_switch, printf, store_count, va_arg, bind.
  repeat break_match; discriminate.
Qed.

Lemma vfprint_switch_fault (e : format_spec_t) (st : dstate) :
  vfprint_switch e st <> Fault OutOfFuel.
Proof.
  unfold vfprint_switch, fprintf, store_count, va_arg, bind.
  repeat break_match; discriminate.
Qed.

Lemma vprint_step_fault (specs : list format_spec_t) (st : dstate) :
  vprint_step specs st <> Fault OutOfFuel.
Proof.
  unfold vprint_step, vprint_display, va_arg, deref.
  destruct (st_p st) as [|c [|c1 q]]; simpl;
    repeat (first [break_match | progress cbn [bind]]); try discriminate.
  destruct (vprint_switch f st) as [st1|f1] eqn:E; simpl.
  - unfold advance; break_match; discriminate.
  - intro H; injection H as ->. exact (vprint_switch_fault _ _ E).
Qed.

Lemma vfprint_step_fault (file : stream) (specs : list format_spec_t)
  (st : dstate) :
  vfprint_step file specs st <> Fault OutOfFuel.
Proof.
  unfold vfprint_step, vfprint_display, va_arg, deref.
  destruct (st_p st) as [|c [|c1 q]]; simpl;
    repeat (first [break_match | progress cbn [bind]]); try discriminate.
  destruct (vfprint_switch f st) as [st1|f1] eqn:E; simpl.
  - unfold advance; break_match; discriminate.
  - intro H; injection H as ->. exact (vfprint_switch_fault _ _ E).
Qed.

Lemma vprint_loop_fuel (fuel : nat) (specs : list format_spec_t)
  (st : dstate) :
  Forall nonempty_substr specs ->
  (length (st_p st) < fuel)%nat ->
  vprint_loop fuel specs st <> Fault OutOfFuel.
Proof.
  intro Hs. revert st; induction fuel as [|fuel IH]; intros st Hlen; [lia|].
  simpl. destruct (st_p st) as [|c q] eqn:Ep; simpl; [discriminate|].
  destruct (Ascii.eqb c NUL); [discriminate|].
  destruct (vprint_step specs st) as [st'|f] eqn:E; simpl.
  - apply IH. apply vprint_step_length in E; [|exact Hs].
    rewrite Ep in E. simpl in *. lia.
  - intro H; injection H as ->. exact (vprint_step_fault _ _ E).
Qed.

Lemma vfprint_loop_fuel (fuel : nat) (file : stream)
  (specs : list format_spec_t) (st : dstate) :
  Forall nonempty_substr specs ->
  (length (st_p st) < fuel)%nat ->
  vfprint_loop fuel file specs st <> Fault OutOfFuel.
Proof.
  intro Hs. revert st; induction fuel as [|fuel IH]; intros st Hlen; [lia|].
  simpl. destruct (st_p st) as [|c q] eqn:Ep; simpl; [discriminate|].
  destruct (Ascii.eqb c NUL); [discriminate|].
  destruct (vfprint_step file specs st) as [st'|f] eqn:E; simpl.
  - apply IH. apply vfprint_step_length in E; [|exact Hs].
    rewrite Ep in E. simpl in *. lia.
  - intro H; injection H as ->. exact (vfprint_step_fault _ _ _ E).
Qed.

(** Both drivers return on every template and every argument list: the
    loop [while ( *p )] never runs out of turns. *)
Theorem display_vprint_terminates (format : option string)
  (args : list arg) :
  display_vprint format args <> Fault OutOfFuel.
Proof.
  unfold display_vprint. destruct format as [s|]; [|discriminate].
  destruct (find_format_specifiers (Some s)) as [specs|f] eqn:E.
  - cbn [bind].
    destruct (vprint_loop _ specs _) as [st|f] eqn:El; [discriminate|].
    cbn [bind]. intro H; injection H as ->. revert El.
    apply vprint_loop_fuel;
      [exact (find_format_specifiers_substr _ _ E) | simpl; lia].
  - cbn [bind]. intro H; injection H as ->.
    exact (find_format_specifiers_terminates _ E).
Qed.

Theorem display_vfprint_terminates (file : option stream)
  (format : option string) (args : list arg) :
  display_vfprint file format args <> Fault OutOfFuel.
Proof.
  unfold display_vfprint. destruct format as [s|]; [|discriminate].
  destruct file as [f0|]; [|discriminate].
  destruct (find_format_specifiers (Some s)) as [specs|f] eqn:E.
  - cbn [bind].
    destruct (vfprint_loop _ f0 specs _) as [st|f] eqn:El; [discriminate|].
    cbn [bind]. intro H; injection H as ->. revert El.
    apply vfprint_loop_fuel;
      [exact (find_format_specifiers_substr _ _ E) | simpl; lia].
  - cbn [bind]. intro H; injection H as ->.
    exact (find_format_specifiers_terminates _ E).
Qed.

(** ** Turns of the loops *)

Lemma vprint_loop_turn (n : nat) (specs : list format_spec_t)
  (st st' : dstate) (c : ascii) :
  deref (st_p st) = Ok c -> Ascii.eqb c NUL = false ->
  vprint_step specs st = Ok st' ->
  vprint_loop (S n) specs st = vprint_loop n specs st'.
Proof.
  intros Hc Hn Hs. cbn [vprint_loop]. rewrite Hc. cbn [bind].
  rewrite Hn, Hs. reflexivity.
Qed.

Lemma vfprint_loop_turn (n : nat) (file : stream)
  (specs : list format_spec_t) (st st' : dstate) (c : ascii) :
  deref (st_p st) = Ok c -> Ascii.eqb c NUL = false ->
  vfprint_step file specs st = Ok st' ->
  vfprint_loop (S n) file specs st = vfprint_loop n file specs st'.
Proof.
  intros Hc Hn Hs. cbn [vfprint_loop]. rewrite Hc. cbn [bind].
  rewrite Hn, Hs. reflexivity.
Qed.

(** The turn at the opaque delimiter when the display value can be rendered
    to standard output. *)
Lemma vprint_step_display (specs : list format_spec_t) (st : dstate)
  (q : ptr) (d : display_t) (rest : list arg)
  (f : addr -> string * Z) (s : addr) (text : string) (r : Z) :
  st_p st = "{"%char :: "}"%char :: q ->
  st_args st = ADisplay (Some d) :: rest ->
  display_fn d = Some f -> self d = Some s -> f s = (text, r) ->
  vprint_step specs st =
  Ok (let st1 := with_p q (to_stdout (EvDisplay text) (with_args rest st)) in
      if r =? -1 then st1 else next_struct st1).
Proof.
  intros Hp Ha Hf Hs Hfs.
  unfold vprint_step, vprint_display, va_arg. rewrite Hp, Ha.
  cbn [Ascii.eqb Bool.eqb deref bind tl]. rewrite Hf, Hs, Hfs.
  destruct (r =? -1); reflexivity.
Qed.

(** ** The claims about whole calls *)

(** C2: the scenario of the spec.  With a native formatter that renders
    ["%d"] of 5 as ["5"] and ["%s"] of ["ok"] as ["ok"], and a display value
    whose [display_fn] writes ["OK"] and does not return -1, the template
    ["%d-%s {} end"] puts the text ["5-ok OK end"] on standard output, uses
    up the three arguments and returns 3. *)
Theorem C2_scenario (native : string -> c_type -> arg -> string)
  (d : display_t) (f : addr -> string * Z) (s : addr) (r : Z) :
  native "%d" C_int (AInt 5) = "5" ->
  native "%s" C_char_ptr (AStr "ok") = "ok" ->
  display_fn d = Some f -> self d = Some s ->
  f s = ("OK", r) -> r <> -1 ->
  exists st,
    display_vprint (Some "%d-%s {} end")
      [AInt 5; AStr "ok"; ADisplay (Some d)] = Ok (3, st) /\
    sink_text native (st_stdout st) = "5-ok OK end" /\
    st_args st = [].
Proof.
  intros Hd Hs Hf Hself Hfs Hr.
  apply Z.eqb_neq in Hr.
  unfold display_vprint.
  replace (find_format_specifiers (Some "%d-%s {} end"))
    with (Ok [spec "%d" TYPE_INT; spec "%s" TYPE_STRING])
    by (vm_compute; reflexivity).
  cbn [bind].
  change (S (length (c_array "%d-%s {} end"))) with 14%nat.
  change (c_array "%d-%s {} end")
    with ("%" :: "d" :: "-" :: "%" :: "s" :: " " :: c_array "{} end")%char.
  do 4 (erewrite vprint_loop_turn;
        [ | reflexivity | reflexivity | vm_compute; reflexivity ]).
  erewrite vprint_loop_turn;
    [ | reflexivity | reflexivity
      | eapply vprint_step_display; [reflexivity | reflexivity | eassumption
                                    | eassumption | eassumption ] ].
  rewrite Hr. cbv zeta.
  do 4 (erewrite vprint_loop_turn;
        [ | reflexivity | reflexivity | vm_compute; reflexivity ]).
  eexists; split; [cbn; reflexivity|].
  cbn. rewrite Hd, Hs. split; reflexivity.
Qed.

Lemma C2_scenario_witness :
  plain_native "%d" C_int (AInt 5) = "5" /\
  plain_native "%s" C_char_ptr (AStr "ok") = "ok" /\
  (2 <> -1) /\
  exists st,
    display_vprint (Some "%d-%s {} end")
      [AInt 5; AStr "ok"; ADisplay (Some ok_display)] = Ok (3, st) /\
    sink_text plain_native (st_stdout st) = "5-ok OK end" /\
    st_args st = [].
Proof.
  split; [reflexivity|]. split; [reflexivity|]. split; [lia|].
  apply (C2_scenario plain_native ok_display (fun _ => ("OK", 2)) 1%nat 2);
    [reflexivity | reflexivity | reflexivity | reflexivity | reflexivity | lia].
Defined.



(** C9: entries are paired with percent signs by count.  In
    ["%y %5d %s"] the scanner drops the malformed ["%y"] and returns the
    entries of ["%5d"] and ["%s"].  The driver, at the percent sign of
    ["%y"], takes the first entry: it formats the first argument with
    ["%5d"] and moves three characters on, the length of ["%5d"], to the
    percent sign of the marker ["%5d"]; there it takes the entry of ["%s"]
    with the second argument and moves two characters on; the percent sign
    of ["%s"] finds the list used up and is written as a character. *)
Theorem C9_entries_paired_by_count :
  let format := "%y %5d %s" in
  let args := [AInt 5; AStr "ok"] in
  let specs := [spec "%5d" TYPE_INT; spec "%s" TYPE_STRING] in
  find_format_specifiers (Some format) = Ok specs /\
  (exists st1,
     vprint_step specs (init (c_array format) args) = Ok st1 /\
     st_stdout st1 = [EvFormat "%5d" C_int (AInt 5)] /\
     st_args st1 = [AStr "ok"] /\
     st_spec_idx st1 = 1%nat /\
     st_p st1 = c_array "%5d %s" /\
     exists st2,
       vprint_step specs st1 = Ok st2 /\
       st_stdout st2 = [EvFormat "%5d" C_int (AInt 5);
                        EvFormat "%s" C_char_ptr (AStr "ok")] /\
       st_args st2 = [] /\
       st_spec_idx st2 = 2%nat /\
       st_p st2 = c_array "d %s") /\
  (exists st,
     display_vprint (Some format) args = Ok (2, st) /\
     st_stdout st = [EvFormat "%5d" C_int (AInt 5);
                     EvFormat "%s" C_char_ptr (AStr "ok");
                     EvChar "d"; EvChar " "; EvChar "%"; EvChar "s"]).
Proof.
  cbv zeta. split; [vm_compute; reflexivity|]. split.
  - eexists; split; [vm_compute; reflexivity|].
    repeat (split; [reflexivity|]).
    eexists; split; [vm_compute; reflexivity|].
    repeat (split; [reflexivity|]). reflexivity.
  - eexists; split; vm_compute; reflexivity.
Qed.

(** ** The two drivers are one algorithm *)



(** A turn takes arguments from the front of the cursor only. *)
Lemma vprint_step_args (specs : list format_spec_t) (st st' : dstate) :
  vprint_step specs st = Ok st' ->
  exists used, st_args st = used ++ st_args st'.
Proof.
  unfold vprint_step, vprint_display, vprint_switch, printf, store_count,
    va_arg, advance, deref.
  destruct (st_args st) as [|a rest] eqn:Ea;
    repeat (first [break_match | progress cbn [bind]]);
    intro H; try discriminate; injection H as <-;
    first [ exists []; simpl; congruence | exists [a]; simpl; congruence ].
Qed.





(** ** The opaque delimiter *)

Lemma vprint_step_opaque (specs : list format_spec_t) (st : dstate)
  (q : ptr) (d : option display_t) (rest : list arg) :
  st_p st = "{"%char :: "}"%char :: q ->
  st_args st = ADisplay d :: rest ->
  exists st',
    vprint_step specs st = Ok st' /\
    opaque_field st_stdout display_fn d q rest st st'.
Proof.
  intros Hp Ha. unfold vprint_step, vprint_display, va_arg.
  rewrite Hp, Ha. cbn [Ascii.eqb Bool.eqb deref bind tl].
  unfold opaque_field.
  destruct d as [dv|].
  - destruct (display_fn dv) as [f|] eqn:Ef, (self dv) as [s|] eqn:Es.
    + destruct (f s) as [text r] eqn:Efs.
      destruct (r =? -1) eqn:Er; eexists; (split; [reflexivity|]);
        cbn; repeat (split; [reflexivity|]); split;
        try (intros [H|(dv' & H & [H'|H'])]; congruence);
        intros dv' f' s' Hd Hf' Hs';
        injection Hd as <-; rewrite Ef in Hf'; rewrite Es in Hs';
        injection Hf' as <-; injection Hs' as <-; rewrite Efs; cbn;
        (split; [reflexivity|]).
      * apply Z.eqb_eq in Er. split; intro; [reflexivity | contradiction].
      * apply Z.eqb_neq in Er. split; intro; [contradiction | reflexivity].
    + eexists; (split; [reflexivity|]);
        cbn; repeat (split; [reflexivity|]); split;
        [intros _; split; reflexivity | intros; congruence].
    + eexists; (split; [reflexivity|]);
        cbn; repeat (split; [reflexivity|]); split;
        [intros _; split; reflexivity | intros; congruence].
    + eexists; (split; [reflexivity|]);
        cbn; repeat (split; [reflexivity|]); split;
        [intros _; split; reflexivity | intros; congruence].
  - eexists; (split; [reflexivity|]);
      cbn; repeat (split; [reflexivity|]); split;
      [intros _; split; reflexivity | intros; congruence].
Qed.

Lemma vfprint_step_opaque (file : stream) (specs : list format_spec_t)
  (st : dstate) (q : ptr) (d : option display_t) (rest : list arg) :
  st_p st = "{"%char :: "}"%char :: q ->
  st_args st = ADisplay d :: rest ->
  exists st',
    vfprint_step file specs st = Ok st' /\
    opaque_field st_file (fdisplay_on file) d q rest st st'.
Proof.
  intros Hp Ha. unfold vfprint_step, vfprint_display, va_arg.
  rewrite Hp, Ha. cbn [Ascii.eqb Bool.eqb deref bind tl].
  unfold opaque_field, fdisplay_on.
  destruct d as [dv|].
  - destruct (fdisplay_fn dv) as [f|] eqn:Ef, (self dv) as [s|] eqn:Es.
    + destruct (f s file) as [text r] eqn:Efs.
      destruct (r =? -1) eqn:Er; eexists; (split; [reflexivity|]);
        cbn; repeat (split; [reflexivity|]); split;
        try (intros [H|(dv' & H & [H'|H'])];
             [ congruence | injection H as <-; rewrite Ef in H'; congruence
             | congruence ]);
        intros dv' f' s' Hd Hf' Hs';
        injection Hd as <-; rewrite Ef in Hf'; rewrite Es in Hs';
        injection Hf' as <-; injection Hs' as <-; rewrite Efs; cbn;
        (split; [reflexivity|]).
      * apply Z.eqb_eq in Er. split; intro; [reflexivity | contradiction].
      * apply Z.eqb_neq in Er. split; intro; [contradiction | reflexivity].
    + eexists; (split; [reflexivity|]);
        cbn; repeat (split; [reflexivity|]); split;
        [intros _; split; reflexivity | intros; congruence].
    + eexists; (split; [reflexivity|]);
        cbn; repeat (split; [reflexivity|]); split;
        [intros _; split; reflexivity
        | intros dv' f' s' Hd Hf'; injection Hd as <-;
          rewrite Ef in Hf'; discriminate].
    + eexists; (split; [reflexivity|]);
        cbn; repeat (split; [reflexivity|]); split;
        [intros _; split; reflexivity
        | intros dv' f' s' Hd Hf'; injection Hd as <-;
          rewrite Ef in Hf'; discriminate].
  - eexists; (split; [reflexivity|]);
      cbn; repeat (split; [reflexivity|]); split;
      [intros _; split; reflexivity | intros; congruence].
Qed.

(** C4: the turn at the opaque delimiter.  With the position at ["{}"] and
    a display value next in the cursor, either driver takes exactly that
    argument, does not fail and goes on behind the delimiter.  A value that
    is null, or lacks the rendering function of the sink, or lacks [self],
    sends nothing to the sink and is not counted.  Otherwise the rendering
    function is called and what it wrote is in the sink; the field is
    counted unless the function returned -1. *)
Theorem C4_opaque_field (specs : list format_spec_t) (file : stream)
  (st : dstate) (q : ptr) (d : option display_t) (rest : list arg)
  (n : nat) :
  st_p st = "{"%char :: "}"%char :: q ->
  st_args st = ADisplay d :: rest ->
  (exists st',
     vprint_step specs st = Ok st' /\
     vprint_loop (S n) specs st = vprint_loop n specs st' /\
     opaque_field st_stdout display_fn d q rest st st') /\
  (exists st',
     vfprint_step file specs st = Ok st' /\
     vfprint_loop (S n) file specs st = vfprint_loop n file specs st' /\
     opaque_field st_file (fdisplay_on file) d q rest st st').
Proof.
  intros Hp Ha. split.
  - destruct (vprint_step_opaque specs st q d rest Hp Ha) as (st' & Hs & Ho).
    exists st'. split; [exact Hs|]. split; [|exact Ho].
    apply (vprint_loop_turn n specs st st' "{"); [rewrite Hp| |exact Hs];
      reflexivity.
  - destruct (vfprint_step_opaque file specs st q d rest Hp Ha)
      as (st' & Hs & Ho).
    exists st'. split; [exact Hs|]. split; [|exact Ho].
    apply (vfprint_loop_turn n file specs st st' "{");
      [rewrite Hp| |exact Hs]; reflexivity.
Qed.

Lemma C4_opaque_field_witness :
  let st := init (c_array "{}!") [ADisplay (Some failing_display); AInt 1] in
  st_p st = "{"%char :: "}"%char :: c_array "!" /\
  st_args st = ADisplay (Some failing_display) :: [AInt 1] /\
  (exists st',
     vprint_step [] st = Ok st' /\
     vprint_loop 3 [] st = vprint_loop 2 [] st' /\
     opaque_field st_stdout display_fn (Some failing_display)
       (c_array "!") [AInt 1] st st') /\
  (exists st',
     vfprint_step 3%nat [] st = Ok st' /\
     vfprint_loop 3 3%nat [] st = vfprint_loop 2 3%nat [] st' /\
     opaque_field st_file (fdisplay_on 3%nat) (Some failing_display)
       (c_array "!") [AInt 1] st st').
Proof.
  cbv zeta. split; [reflexivity|]. split; [reflexivity|].
  exact (C4_opaque_field [] 3%nat
           (init (c_array "{}!") [ADisplay (Some failing_display); AInt 1])
           (c_array "!") (Some failing_display) [AInt 1] 2%nat
           eq_refl eq_refl).
Defined.

(** C4, as the claim has it: a rendering function that writes ["X"] and
    then returns -1.  The field is not counted, but the sink is not empty:
    the text the function wrote before it reported failure is there.  And a
    delimiter that the position never reaches takes no argument: in
    ["%{}%5d"] the entry of ["%5d"] is used at the first percent sign and
    carries the position over the delimiter. *)
Lemma C4_failed_render_counterexample :
  display_fn failing_display = Some (fun _ => ("X", -1)) /\
  (exists st,
     display_vprint (Some "{}") [ADisplay (Some failing_display)]
     = Ok (0, st) /\
     st_stdout st = [EvDisplay "X"] /\
     st_stdout st <> []) /\
  (exists st,
     display_vprint (Some "%{}%5d") [AInt 5; ADisplay (Some ok_display)]
     = Ok (1, st) /\
     st_args st = [ADisplay (Some ok_display)]).
Proof.
  split; [reflexivity|]. split.
  - eexists; split; [vm_compute; reflexivity|].
    split; [reflexivity | discriminate].
  - eexists; split; [vm_compute; reflexivity|]. reflexivity.
Qed.

(** ** Native markers *)

Lemma convert_in_range (t : c_type) (v : Z) :
  - 2 ^ (bits t - 1) <= v < 2 ^ (bits t - 1) -> convert t v = v.
Proof.
  unfold convert. intro H.
  assert (Hb : 2 ^ bits t = 2 * 2 ^ (bits t - 1)) by (destruct t; reflexivity).
  rewrite Hb. rewrite Z.mod_small; lia.
Qed.

(** C5: a write-count entry.  At a percent sign whose current entry has a
    [%n] tag, with a pointer next in the cursor, the driver takes that one
    argument, sends nothing to the sink, stores through the pointer the sum
    of the two counters as it stands before the marker, converted to the
    type the pointer points to, and then counts the marker.  The stored
    value is the count itself whenever the count is in the range of that
    type. *)
Theorem C5_write_count (specs : list format_spec_t) (st : dstate)
  (c1 : ascii) (q : ptr) (e : format_spec_t) (t : c_type) (l : nat)
  (rest : list arg) (p' : ptr) :
  st_p st = "%"%char :: c1 :: q -> c1 <> "%"%char ->
  nth_error specs (st_spec_idx st) = Some e ->
  write_count_tag (type e) = Some t ->
  st_args st = AOut l :: rest ->
  advance (String.length (substr e)) (st_p st) = Ok p' ->
  exists st',
    vprint_step specs st = Ok st' /\
    st_args st' = rest /\
    st_stdout st' = st_stdout st /\
    st_mem st' =
      st_mem st ++ [(l, convert t (st_spec_count st + st_struct_count st))] /\
    (- 2 ^ (bits t - 1) <= st_spec_count st + st_struct_count st
       < 2 ^ (bits t - 1) ->
     st_mem st' =
       st_mem st ++ [(l, st_spec_count st + st_struct_count st)]) /\
    st_spec_count st' = st_spec_count st + 1 /\
    st_struct_count st' = st_struct_count st /\
    st_spec_idx st' = S (st_spec_idx st) /\
    st_p st' = p'.
Proof.
  intros Hp Hc1 He Ht Ha Hadv.
  apply Ascii.eqb_neq in Hc1.
  unfold vprint_step. rewrite Hp. cbn [Ascii.eqb Bool.eqb deref bind].
  change (Ascii.eqb c1 "%") with (Ascii.eqb c1 "%"%char) in *.
  rewrite Hc1, He. cbn [negb].
  assert (Hsw : vprint_switch e st = store_count t st)
    by (unfold vprint_switch; destruct (type e); try discriminate;
        injection Ht as <-; reflexivity).
  rewrite Hsw. unfold store_count, va_arg. rewrite Ha.
  cbn [bind st_p write_mem with_args]. rewrite Hadv. cbn [bind].
  eexists; split; [reflexivity|]. cbn.
  repeat (split; [reflexivity|]). split; [|repeat split].
  intro Hr. rewrite (convert_in_range _ _ Hr). reflexivity.
Qed.

Lemma C5_write_count_witness :
  let specs := [spec "%hn" TYPE_POINTER_SHORT] in
  let st := init (c_array "%hn!") [AOut 7; AInt 1] in
  st_p st = "%"%char :: "h"%char :: c_array "n!" /\
  "h"%char <> "%"%char /\
  nth_error specs (st_spec_idx st) = Some (spec "%hn" TYPE_POINTER_SHORT) /\
  write_count_tag TYPE_POINTER_SHORT = Some C_short /\
  st_args st = AOut 7 :: [AInt 1] /\
  advance 3 (st_p st) = Ok (c_array "!") /\
  exists st',
    vprint_step specs st = Ok st' /\
    st_args st' = [AInt 1] /\
    st_stdout st' = [] /\
    st_mem st' = [] ++ [(7%nat, convert C_short (0 + 0))] /\
    (- 2 ^ (bits C_short - 1) <= 0 + 0 < 2 ^ (bits C_short - 1) ->
     st_mem st' = [] ++ [(7%nat, 0 + 0)]) /\
    st_spec_count st' = 0 + 1 /\
    st_struct_count st' = 0 /\
    st_spec_idx st' = 1%nat /\
    st_p st' = c_array "!".
Proof.
  cbv zeta.
  assert (Hc : "h"%char <> "%"%char) by discriminate.
  repeat (split; [first [reflexivity | exact Hc]|]).
  exact (C5_write_count [spec "%hn" TYPE_POINTER_SHORT]
           (init (c_array "%hn!") [AOut 7; AInt 1])
           "h" (c_array "n!") (spec "%hn" TYPE_POINTER_SHORT) C_short 7%nat
           [AInt 1] (c_array "!")
           eq_refl Hc eq_refl eq_refl eq_refl eq_refl).
Defined.

(** C5, as the claim has it: after 128 rendered fields a [%hhn] marker
    does not store 128, which a [signed char] cannot hold, but -128. *)
Lemma C5_narrow_store_counterexample :
  exists st,
    display_vprint (Some (copies 128 "%d" ++ "%hhn")%string)
      (repeat (AInt 0) 128 ++ [AOut 0])
    = Ok (129, st) /\
    st_mem st = [(0%nat, -128)] /\
    st_mem st <> [(0%nat, 128)].
Proof.
  eexists; split; [vm_compute; reflexivity|].
  split; [reflexivity | discriminate].
Qed.

(** C8: an entry with an indirect width or precision.  At a percent sign
    whose current entry holds a star and is neither a write-count entry nor
    the no-argument entry, the driver takes exactly one argument from the
    cursor and calls the native formatter once, with the substring of the
    entry, star included, as the rule and that argument alone; the integer
    that the rule expects for the star is not taken. *)
Theorem C8_indirect_width_one_argument (specs : list format_spec_t)
  (st : dstate) (c1 : ascii) (q : ptr) (e : format_spec_t) (a : arg)
  (rest : list arg) (p' : ptr) :
  st_p st = "%"%char :: c1 :: q -> c1 <> "%"%char ->
  nth_error specs (st_spec_idx st) = Some e ->
  In "*"%char (list_ascii_of_string (substr e)) ->
  write_count_tag (type e) = None -> type e <> TYPE_NONE ->
  st_args st = a :: rest ->
  advance (String.length (substr e)) (st_p st) = Ok p' ->
  exists st' t,
    vprint_step specs st = Ok st' /\
    st_args st' = rest /\
    st_stdout st' = st_stdout st ++ [EvFormat (substr e) t a] /\
    st_mem st' = st_mem st /\
    st_spec_count st' = st_spec_count st + 1 /\
    st_spec_idx st' = S (st_spec_idx st) /\
    st_p st' = p'.
Proof.
  intros Hp Hc1 He _ Hw Hn Ha Hadv.
  apply Ascii.eqb_neq in Hc1.
  unfold vprint_step. rewrite Hp. cbn [Ascii.eqb Bool.eqb deref bind].
  change (Ascii.eqb c1 "%") with (Ascii.eqb c1 "%"%char) in *.
  rewrite Hc1, He. cbn [negb].
  assert (Hsw : exists t, vprint_switch e st = printf (substr e) t st)
    by (unfold vprint_switch; destruct (type e);
        first [discriminate | congruence | eexists; reflexivity]).
  destruct Hsw as [t Hsw]. rewrite Hsw. unfold printf, va_arg. rewrite Ha.
  cbn [bind st_p to_stdout with_args]. rewrite Hadv. cbn [bind].
  eexists; exists t; split; [reflexivity|]. cbn. repeat split.
Qed.

Lemma C8_indirect_width_one_argument_witness :
  let specs := [spec "%*d" TYPE_INT] in
  let st := init (c_array "%*d") [AInt 5; AInt 42] in
  find_format_specifiers (Some "%*d") = Ok specs /\
  st_p st = "%"%char :: "*"%char :: c_array "d" /\
  "*"%char <> "%"%char /\
  nth_error specs (st_spec_idx st) = Some (spec "%*d" TYPE_INT) /\
  In "*"%char (list_ascii_of_string "%*d") /\
  write_count_tag TYPE_INT = None /\ TYPE_INT <> TYPE_NONE /\
  st_args st = AInt 5 :: [AInt 42] /\
  advance 3 (st_p st) = Ok (c_array "") /\
  exists st' t,
    vprint_step specs st = Ok st' /\
    st_args st' = [AInt 42] /\
    st_stdout st' = [] ++ [EvFormat "%*d" t (AInt 5)] /\
    st_mem st' = [] /\
    st_spec_count st' = 0 + 1 /\
    st_spec_idx st' = 1%nat /\
    st_p st' = c_array "".
Proof.
  cbv zeta.
  assert (Hc : "*"%char <> "%"%char) by discriminate.
  assert (Hn : TYPE_INT <> TYPE_NONE) by discriminate.
  assert (Hi : In "*"%char (list_ascii_of_string "%*d"))
    by (simpl; auto).
  split; [vm_compute; reflexivity|].
  repeat (split; [first [reflexivity | exact Hc | exact Hn | exact Hi]|]).
  exact (C8_indirect_width_one_argument [spec "%*d" TYPE_INT]
           (init (c_array "%*d") [AInt 5; AInt 42])
           "*" (c_array "d") (spec "%*d" TYPE_INT) (AInt 5) [AInt 42]
           (c_array "")
           eq_refl Hc eq_refl Hi eq_refl Hn eq_refl eq_refl).
Defined.

(** C8, as the claim has it: two markers with a star for which no rule
    reaches the formatter.  ["%*n"] takes its one argument as the pointer to
    store the count through; ["%*%"] takes no argument at all. *)
Lemma C8_star_without_format_counterexample :
  find_format_specifiers (Some "%*n") = Ok [spec "%*n" TYPE_POINTER_INT] /\
  (exists st,
     display_vprint (Some "%*n") [AOut 0; AInt 7] = Ok (1, st) /\
     st_stdout st = [] /\ st_mem st = [(0%nat, 0)] /\
     st_args st = [AInt 7]) /\
  find_format_specifiers (Some "%*%") = Ok [spec "%*%" TYPE_NONE] /\
  (exists st,
     display_vprint (Some "%*%") [AInt 7] = Ok (1, st) /\
     st_stdout st = [] /\ st_args st = [AInt 7]).
Proof.
  split; [vm_compute; reflexivity|]. split.
  - eexists; split; [vm_compute; reflexivity|]. repeat split.
  - split; [vm_compute; reflexivity|].
    eexists; split; [vm_compute; reflexivity|]. repeat split.
Qed.

(** ** The capability of the buffer sink *)




















(** * Further properties *)

(** ** Characters of a marker *)

Lemma conv_ok_facts (c : ascii) :
  conv_ok c = true ->
  strchr "-+ #0" c = false /\ isdigit c = false /\
  Ascii.eqb c "*" = false /\ Ascii.eqb c "." = false /\
  strchr "hljztL" c = false /\ strchr "diouxXeEfFgGaAcspn%" c = true /\
  Ascii.eqb c NUL = false /\ Ascii.eqb c "%" = false /\
  Ascii.eqb c "h" = false /\ Ascii.eqb c "l" = false.
Proof.
  unfold conv_ok. intro H. apply existsb_exists in H.
  destruct H as (x & Hin & Heq). apply Ascii.eqb_eq in Heq. subst x.
  simpl in Hin.
  repeat (destruct Hin as [<-|Hin]; [vm_compute; repeat split|]).
  contradiction.
Qed.

Lemma list_ascii_eqb_eq (a b : list ascii) :
  list_ascii_eqb a b = true -> a = b.
Proof.
  revert b; induction a as [|x a IH]; intros [|y b]; simpl;
    try discriminate; [reflexivity|].
  intro H. apply andb_prop in H. destruct H as [Hx Hr].
  apply Ascii.eqb_eq in Hx. subst y. f_equal. apply IH. exact Hr.
Qed.

Lemma isdigit_facts (d : ascii) :
  isdigit d = true ->
  Ascii.eqb d "*" = false /\ Ascii.eqb d "%" = false /\
  Ascii.eqb d NUL = false /\
  (Ascii.eqb d "0" = false -> strchr "-+ #0" d = false).
Proof.
  destruct d as [[] [] [] [] [] [] [] []]; vm_compute; intro H;
    try discriminate; repeat split; intro H'; try reflexivity;
    discriminate.
Qed.

Lemma is_flag_facts (c : ascii) :
  is_flag c = true ->
  strchr "-+ #0" c = true /\ Ascii.eqb c "%" = false /\
  Ascii.eqb c NUL = false.
Proof.
  unfold is_flag. intro H. apply existsb_exists in H.
  destruct H as (x & Hin & Heq). apply Ascii.eqb_eq in Heq. subst x.
  simpl in Hin.
  repeat (destruct Hin as [<-|Hin]; [vm_compute; repeat split|]).
  contradiction.
Qed.

Lemma length_ok_cases (l : list ascii) :
  length_ok l = true ->
  In l [chars ""; chars "hh"; chars "h"; chars "l"; chars "ll";
        chars "j"; chars "z"; chars "t"; chars "L"].
Proof.
  unfold length_ok. intro H. apply existsb_exists in H.
  destruct H as (x & Hin & Heq). apply list_ascii_eqb_eq in Heq.
  subst x. exact Hin.
Qed.

(** The scanner's loops over the parts of a marker. *)
Lemma skip_flags_app (fl y : list ascii) :
  forallb is_flag fl = true -> skip_flags (fl ++ y) = skip_flags y.
Proof.
  induction fl as [|c fl IH]; simpl; intro H; [reflexivity|].
  apply andb_prop in H. destruct H as [Hc Hfl].
  apply is_flag_facts in Hc. destruct Hc as [-> _]. auto.
Qed.

Lemma skip_digits_app (ds y : list ascii) :
  forallb isdigit ds = true -> skip_digits (ds ++ y) = skip_digits y.
Proof.
  induction ds as [|c ds IH]; simpl; intro H; [reflexivity|].
  apply andb_prop in H. destruct H as [-> Hds]. auto.
Qed.

Lemma length_conv_head (l : list ascii) (c : ascii) (rest : list ascii) :
  length_ok l = true -> conv_ok c = true ->
  exists a y,
    l ++ c :: rest = a :: y /\
    Ascii.eqb a "." = false /\ isdigit a = false /\
    Ascii.eqb a "*" = false /\ strchr "-+ #0" a = false /\
    Ascii.eqb a "%" = false /\ Ascii.eqb a NUL = false.
Proof.
  intros Hl Hc. apply length_ok_cases in Hl.
  apply conv_ok_facts in Hc.
  destruct Hc as (H1 & H2 & H3 & H4 & _ & _ & H7 & H8 & _).
  simpl in Hl.
  repeat (destruct Hl as [<-|Hl];
          [eexists; eexists; split; [reflexivity|];
           first [ repeat split; assumption
                 | vm_compute; repeat split ]|]).
  contradiction.
Qed.

Lemma prec_head (p : option (list ascii)) (l : list ascii) (c : ascii)
  (rest : list ascii) :
  length_ok l = true -> conv_ok c = true ->
  exists a y,
    prec_text p ++ l ++ c :: rest = a :: y /\
    isdigit a = false /\
    Ascii.eqb a "*" = false /\ strchr "-+ #0" a = false /\
    Ascii.eqb a "%" = false /\ Ascii.eqb a NUL = false.
Proof.
  intros Hl Hc. destruct p as [d|]; simpl.
  - eexists; eexists; split; [reflexivity|]. vm_compute; repeat split.
  - destruct (length_conv_head l c rest Hl Hc) as (a & y & E & _ & H).
    exists a, y. split; [exact E | exact H].
Qed.

Lemma width_head (w : list ascii) (p : option (list ascii))
  (l : list ascii) (c : ascii) (rest : list ascii) :
  width_ok w = true -> length_ok l = true -> conv_ok c = true ->
  exists a y,
    w ++ prec_text p ++ l ++ c :: rest = a :: y /\
    strchr "-+ #0" a = false /\
    Ascii.eqb a "%" = false /\ Ascii.eqb a NUL = false.
Proof.
  intros Hw Hl Hc. destruct w as [|x w].
  - destruct (prec_head p l c rest Hl Hc) as (a & y & E & _ & _ & H).
    exists a, y. split; [exact E | exact H].
  - exists x, (w ++ prec_text p ++ l ++ c :: rest).
    split; [reflexivity|].
    unfold width_ok, digits_or_star in Hw.
    apply andb_prop in Hw. destruct Hw as [Hd Hz].
    apply negb_true_iff in Hz.
    apply orb_prop in Hd. destruct Hd as [Hs|Hd].
    + apply list_ascii_eqb_eq in Hs. injection Hs as -> ->.
      vm_compute; repeat split.
    + simpl in Hd. apply andb_prop in Hd. destruct Hd as [Hx _].
      apply isdigit_facts in Hx. destruct Hx as (_ & H2 & H3 & H4).
      repeat split; auto.
Qed.

Lemma skip_flags_marker (m : marker) (rest : list ascii) :
  marker_ok m = true ->
  skip_flags (m_flags m ++ m_width m ++ prec_text (m_prec m)
              ++ m_length m ++ m_conv m :: rest)
  = Ok (m_width m ++ prec_text (m_prec m) ++ m_length m ++ m_conv m :: rest).
Proof.
  unfold marker_ok. intro H.
  repeat (apply andb_prop in H; destruct H as [H ?]).
  rewrite skip_flags_app by assumption.
  destruct (width_head (m_width m) (m_prec m) (m_length m) (m_conv m) rest)
    as (a & y & E & Ha & _); try assumption.
  rewrite E. simpl. rewrite Ha. reflexivity.
Qed.

Lemma skip_digits_stop (ds : list ascii) (a : ascii) (y : list ascii) :
  forallb isdigit ds = true -> isdigit a = false ->
  skip_digits (ds ++ a :: y) = Ok (a :: y).
Proof.
  intros Hd Ha. rewrite skip_digits_app by exact Hd.
  simpl. rewrite Ha. reflexivity.
Qed.

Lemma skip_width_marker (w : list ascii) (a : ascii) (y : list ascii) :
  digits_or_star w = true -> isdigit a = false -> Ascii.eqb a "*" = false ->
  skip_width (w ++ a :: y) = Ok (a :: y).
Proof.
  unfold digits_or_star. intros Hw Ha Hs.
  apply orb_prop in Hw. destruct Hw as [Hw|Hw].
  - apply list_ascii_eqb_eq in Hw. subst w. reflexivity.
  - unfold skip_width. destruct w as [|x w].
    + simpl. rewrite Hs. simpl. rewrite Ha. reflexivity.
    + pose proof Hw as Hw'. simpl in Hw'. apply andb_prop in Hw'.
      destruct Hw' as [Hx _]. apply isdigit_facts in Hx.
      destruct Hx as [Hx _].
      cbn [app deref bind]. rewrite Hx.
      apply (skip_digits_stop (x :: w)); assumption.
Qed.

Lemma skip_precision_marker (p : option (list ascii)) (a : ascii)
  (y : list ascii) :
  prec_ok p = true -> Ascii.eqb a "." = false ->
  isdigit a = false -> Ascii.eqb a "*" = false ->
  skip_precision (prec_text p ++ a :: y) = Ok (a :: y).
Proof.
  intros Hp Hdot Ha Hs. destruct p as [d|]; simpl.
  - unfold skip_precision. cbn [deref bind tl Ascii.eqb Bool.eqb].
    simpl in Hp. unfold digits_or_star in Hp.
    apply orb_prop in Hp. destruct Hp as [Hp|Hp].
    + apply list_ascii_eqb_eq in Hp. subst d. reflexivity.
    + destruct d as [|x d].
      * simpl. rewrite Hs. simpl. rewrite Ha. reflexivity.
      * pose proof Hp as Hp'. simpl in Hp'. apply andb_prop in Hp'.
        destruct Hp' as [Hx _]. apply isdigit_facts in Hx.
        destruct Hx as [Hx _].
        cbn [app deref bind]. rewrite Hx.
        apply (skip_digits_stop (x :: d)); assumption.
  - unfold skip_precision. simpl. rewrite Hdot. reflexivity.
Qed.

Lemma read_length_marker (l : list ascii) (c : ascii) (rest : list ascii) :
  length_ok l = true -> conv_ok c = true ->
  read_length (l ++ c :: rest) = Ok (l, c :: rest).
Proof.
  intros Hl Hc. apply length_ok_cases in Hl. apply conv_ok_facts in Hc.
  destruct Hc as (_ & _ & _ & _ & H5 & _ & _ & _ & Hh & Hl').
  simpl in Hl.
  repeat (destruct Hl as [<-|Hl];
          [unfold read_length; simpl; rewrite ?H5, ?Hh, ?Hl'; reflexivity|]).
  contradiction.
Qed.

(** Every conversion letter that the scanner accepts gets a tag, and the
    tag is never [TYPE_FLOAT]. *)
Lemma get_type_accepted (len : list ascii) (c : ascii) :
  strchr "diouxXeEfFgGaAcspn%" c = true ->
  exists t, get_type len c = Some t /\ t <> TYPE_FLOAT.
Proof.
  unfold strchr. intro H. apply orb_prop in H.
  assert (Hc : In c (NUL :: chars "diouxXeEfFgGaAcspn%")).
  { destruct H as [H|H].
    - apply Ascii.eqb_eq in H. left. symmetry. exact H.
    - apply existsb_exists in H. destruct H as (x & Hin & Heq).
      apply Ascii.eqb_eq in Heq. subst x. right. exact Hin. }
  clear H. simpl in Hc.
  repeat (destruct Hc as [<-|Hc];
          [ cbv [get_type Ascii.eqb Bool.eqb strchr orb NUL Ascii.zero
                 existsb list_ascii_of_string];
            cbv [signed_type unsigned_type reference_type];
            repeat break_match; eexists; split;
            first [reflexivity | discriminate] |]).
  contradiction.
Qed.

Lemma c_str_no_nul (l : list ascii) :
  (forall c, In c l -> Ascii.eqb c NUL = false) -> c_str l = l.
Proof.
  induction l as [|x l IH]; simpl; intro H; [reflexivity|].
  rewrite (H x) by (left; reflexivity). f_equal. apply IH.
  intros c Hc. apply H. right. exact Hc.
Qed.

Lemma digits_or_star_no_nul (w : list ascii) (c : ascii) :
  digits_or_star w = true -> In c w -> Ascii.eqb c NUL = false.
Proof.
  unfold digits_or_star. intros Hw Hc.
  apply orb_prop in Hw. destruct Hw as [Hw|Hw].
  - apply list_ascii_eqb_eq in Hw. subst w.
    destruct Hc as [<-|[]]. reflexivity.
  - rewrite forallb_forall in Hw. apply Hw in Hc.
    apply isdigit_facts in Hc. apply Hc.
Qed.

Lemma marker_text_no_nul (m : marker) (c : ascii) :
  marker_ok m = true -> In c (marker_text m) -> Ascii.eqb c NUL = false.
Proof.
  unfold marker_ok, marker_text. intros H Hc.
  repeat (apply andb_prop in H; destruct H as [H ?]).
  destruct Hc as [<-|Hc]; [reflexivity|].
  apply in_app_or in Hc. destruct Hc as [Hc|Hc].
  { rewrite forallb_forall in H. apply H in Hc.
    apply is_flag_facts in Hc. apply Hc. }
  apply in_app_or in Hc. destruct Hc as [Hc|Hc].
  { unfold width_ok in *.
    match goal with
    | Hw : digits_or_star _ && _ = true |- _ =>
      apply andb_prop in Hw; destruct Hw as [Hw _];
        exact (digits_or_star_no_nul _ _ Hw Hc)
    end. }
  apply in_app_or in Hc. destruct Hc as [Hc|Hc].
  { destruct (m_prec m) as [d|]; simpl in Hc; [|contradiction].
    destruct Hc as [<-|Hc]; [reflexivity|].
    eapply digits_or_star_no_nul; eassumption. }
  apply in_app_or in Hc. destruct Hc as [Hc|Hc].
  { match goal with
    | Hl : length_ok _ = true |- _ => apply length_ok_cases in Hl;
        simpl in Hl;
        repeat (destruct Hl as [Hl|Hl];
                [rewrite <- Hl in Hc; simpl in Hc;
                 repeat (destruct Hc as [<-|Hc]; [reflexivity|]);
                 contradiction|]);
        contradiction
    end. }
  destruct Hc as [<-|[]].
  match goal with
  | Hv : conv_ok _ = true |- _ => apply conv_ok_facts in Hv; apply Hv
  end.
Qed.

Lemma marker_text_app (m : marker) (rest : list ascii) :
  marker_text m ++ rest =
  "%"%char :: m_flags m ++ m_width m ++ prec_text (m_prec m)
              ++ m_length m ++ m_conv m :: rest.
Proof.
  unfold marker_text. simpl. repeat rewrite <- app_assoc. reflexivity.
Qed.

Lemma scan_marker_of_marker (m : marker) (rest : list ascii) :
  marker_ok m = true ->
  scan_marker (marker_text m ++ rest) = Ok (rest, Some (marker_entry m)).
Proof.
  intro Hm. pose proof Hm as Hparts. unfold marker_ok in Hparts.
  repeat (apply andb_prop in Hparts; destruct Hparts as [Hparts ?]).
  assert (Hwd : digits_or_star (m_width m) = true)
    by (unfold width_ok in *;
        match goal with
        | Hw : digits_or_star _ && _ = true |- _ =>
          apply andb_prop in Hw; apply Hw
        end).
  unfold scan_marker. rewrite marker_text_app. cbn [tl].
  rewrite skip_flags_marker by exact Hm. cbn [bind].
  destruct (prec_head (m_prec m) (m_length m) (m_conv m) rest)
    as (a3 & y3 & E3 & Hd3 & Hs3 & _); try assumption.
  rewrite E3. rewrite skip_width_marker by assumption. cbn [bind].
  rewrite <- E3.
  destruct (length_conv_head (m_length m) (m_conv m) rest)
    as (a4 & y4 & E4 & Hdot4 & Hd4 & Hs4 & _); try assumption.
  rewrite E4. rewrite skip_precision_marker by assumption. cbn [bind].
  rewrite <- E4. rewrite read_length_marker by assumption. cbn [bind deref].
  match goal with
  | Hv : conv_ok _ = true |- _ =>
    pose proof (conv_ok_facts _ Hv) as (_ & _ & _ & _ & _ & Hacc & _)
  end.
  rewrite Hacc. cbn [tl].
  destruct (get_type_accepted (m_length m) (m_conv m) Hacc) as (t & Ht & _).
  unfold marker_entry. rewrite Ht.
  rewrite <- marker_text_app.
  replace (length (marker_text m ++ rest) - length rest)%nat
    with (length (marker_text m)) by (rewrite length_app; lia).
  rewrite firstn_app, firstn_all, Nat.sub_diag, firstn_0, app_nil_r.
  rewrite c_str_no_nul by (intros c Hc; exact (marker_text_no_nul m c Hm Hc)).
  reflexivity.
Qed.

(** X2: The scanner takes every marker of the grammar whole, whatever follows
    it: it stops behind the conversion letter and the entry holds the exact
    text of the marker, with the tag of the table. *)
Theorem scan_marker_grammar (m : marker) (rest : list ascii) :
  marker_ok m = true ->
  scan_marker (marker_text m ++ rest) = Ok (rest, Some (marker_entry m)).
Proof. intros; eapply scan_marker_of_marker; eassumption. Qed.

Lemma marker_second_char (m : marker) (rest : list ascii) :
  marker_ok m = true ->
  exists c1 y,
    marker_text m ++ rest = "%"%char :: c1 :: y /\
    Ascii.eqb c1 "%" = false.
Proof.
  intro Hm. rewrite marker_text_app. unfold marker_ok in Hm.
  repeat (apply andb_prop in Hm; destruct Hm as [Hm ?]).
  destruct (m_flags m) as [|f fl].
  - destruct (width_head (m_width m) (m_prec m) (m_length m) (m_conv m)
                rest) as (a & y & E & _ & Ha & _); try assumption.
    exists a, y. simpl. rewrite E. split; [reflexivity | exact Ha].
  - simpl in Hm. apply andb_prop in Hm. destruct Hm as [Hf _].
    apply is_flag_facts in Hf. destruct Hf as (_ & Hf & _).
    eexists; eexists; split; [reflexivity | exact Hf].
Qed.

Lemma tokens_text_cons (t : token) (toks : list token) :
  tokens_text (t :: toks) = token_text t ++ tokens_text toks.
Proof. reflexivity. Qed.

Lemma entries_cons (t : token) (toks : list token) :
  entries (t :: toks) = token_entries t ++ entries toks.
Proof. reflexivity. Qed.

Lemma marker_text_length (m : marker) : (1 <= length (marker_text m))%nat.
Proof. unfold marker_text; simpl; lia. Qed.

Lemma scan_loop_tokens (toks : list token) :
  tokens_ok toks = true ->
  forall fuel acc,
    (length (tokens_text toks) < fuel)%nat ->
    scan_loop fuel (tokens_text toks ++ [NUL]) acc = Ok (acc ++ entries toks).
Proof.
  induction toks as [|t toks IH]; intros Hok fuel acc Hfuel.
  - destruct fuel as [|fuel]; [simpl in Hfuel; lia|].
    simpl. rewrite app_nil_r. reflexivity.
  - cbn [tokens_ok] in Hok. apply andb_prop in Hok.
    destruct Hok as [Ht Hrest]. specialize (IH Hrest).
    rewrite tokens_text_cons, entries_cons in *. rewrite length_app in Hfuel.
    destruct fuel as [|fuel]; [lia|].
    destruct t as [c| |m|].
    + apply andb_prop in Ht. destruct Ht as [Ht _].
      apply andb_prop in Ht. destruct Ht as [Hp Hn].
      apply negb_true_iff in Hp, Hn.
      cbn [token_text token_entries app scan_loop deref bind tl].
      rewrite Hn, Hp. apply IH. simpl in Hfuel. lia.
    + cbn [token_text token_entries app scan_loop deref bind tl chars
           list_ascii_of_string Ascii.eqb Bool.eqb NUL Ascii.zero].
      apply IH. simpl in Hfuel. lia.
    + cbn [token_text token_entries] in *.
      rewrite <- app_assoc.
      destruct (marker_second_char m (tokens_text toks ++ [NUL]) Ht)
        as (c1 & y & E & Hc1).
      cbn [scan_loop]. rewrite E.
      cbn [deref bind tl Ascii.eqb Bool.eqb NUL Ascii.zero].
      rewrite Hc1. rewrite <- E.
      rewrite scan_marker_of_marker by exact Ht. cbn [bind].
      rewrite IH by (pose proof (marker_text_length m); lia).
      rewrite <- app_assoc. reflexivity.
    + cbn [token_text token_entries chars list_ascii_of_string app].
      destruct fuel as [|fuel]; [simpl in Hfuel; lia|].
      cbn [scan_loop deref bind tl Ascii.eqb Bool.eqb NUL Ascii.zero].
      apply IH. simpl in Hfuel. lia.
Qed.

Lemma c_array_template_of (toks : list token) :
  c_array (template_of toks) = tokens_text toks ++ [NUL].
Proof.
  unfold c_array, template_of.
  rewrite list_ascii_of_string_of_list_ascii. reflexivity.
Qed.

Lemma scanner_on_tokens (toks : list token) :
  tokens_ok toks = true ->
  find_format_specifiers (Some (template_of toks)) = Ok (entries toks).
Proof.
  intro Hok. unfold find_format_specifiers. cbv zeta.
  rewrite c_array_template_of.
  rewrite scan_loop_tokens; [reflexivity | exact Hok |].
  rewrite length_app. simpl. lia.
Qed.

(** X3: On a template made of tokens the scanner returns the entries of the
    markers, in order, and nothing else. *)
Theorem find_format_specifiers_tokens (toks : list token) :
  tokens_ok toks = true ->
  find_format_specifiers (Some (template_of toks)) = Ok (entries toks).
Proof. intros; eapply scanner_on_tokens; eassumption. Qed.

(** ** The driver on a template made of tokens *)

Lemma string_of_list_ascii_length (l : list ascii) :
  String.length (string_of_list_ascii l) = length l.
Proof. induction l as [|c l IH]; simpl; [reflexivity | f_equal; exact IH]. Qed.

Lemma rest_head (toks : list token) :
  begins_with_close toks = false ->
  exists c1 y,
    tokens_text toks ++ [NUL] = c1 :: y /\ Ascii.eqb c1 "}" = false.
Proof.
  intro H. destruct toks as [|[c| |m|] toks]; simpl in *;
    eexists; eexists; (split; [reflexivity|]); first [exact H | reflexivity].
Qed.

Lemma vprint_step_token (specs : list format_spec_t) (t : token)
  (rest : list token) (st : dstate) :
  tokens_ok (t :: rest) = true ->
  st_p st = token_text t ++ tokens_text rest ++ [NUL] ->
  (forall e, nth_error (token_entries t) 0 = Some e ->
             nth_error specs (st_spec_idx st) = Some e) ->
  vprint_step specs st = token_step t st.
Proof.
  intros Hok Hp Hnth. cbn [tokens_ok] in Hok. apply andb_prop in Hok.
  destruct Hok as [Ht _]. unfold vprint_step, token_step. rewrite Hp.
  destruct t as [c| |m|]; cbn [token_text app length skipn chars
                                list_ascii_of_string].
  - apply andb_prop in Ht. destruct Ht as [Ht Hb].
    apply andb_prop in Ht. destruct Ht as [Hpc _].
    apply negb_true_iff in Hpc, Hb. rewrite Hpc.
    destruct (Ascii.eqb c "{") eqn:Eb; [|reflexivity].
    simpl in Hb. destruct (rest_head rest Hb) as (c1 & y & E & Hc1).
    rewrite E. cbn [deref bind]. rewrite Hc1. reflexivity.
  - reflexivity.
  - destruct (marker_second_char m (tokens_text rest ++ [NUL]) Ht)
      as (c1 & y & E & Hc1).
    rewrite E. cbn [deref bind Ascii.eqb Bool.eqb]. rewrite Hc1. cbn [negb].
    rewrite (Hnth (marker_entry m) eq_refl).
    destruct (vprint_switch (marker_entry m) st) as [st1|f] eqn:Esw;
      [|reflexivity].
    cbn [bind]. rewrite (vprint_switch_p _ _ _ Esw), Hp.
    cbn [token_text]. unfold advance.
    cbn [marker_entry substr]. rewrite string_of_list_ascii_length.
    rewrite length_app.
    destruct (Nat.leb_spec (length (marker_text m))
                (length (marker_text m)
                 + length (tokens_text rest ++ [NUL]))) as [_|Hlt];
      [|lia].
    cbn [bind]. rewrite E. reflexivity.
  - reflexivity.
Qed.

Lemma token_step_after (t : token) (st st' : dstate) :
  token_step t st = Ok st' ->
  st_p st' = skipn (length (token_text t)) (st_p st) /\
  st_spec_idx st' = (st_spec_idx st + length (token_entries t))%nat.
Proof.
  unfold token_step. destruct t as [c| |m|].
  - intro H; injection H as <-. simpl. split; [reflexivity | lia].
  - intro H; injection H as <-. simpl. split; [reflexivity | lia].
  - destruct (vprint_switch (marker_entry m) st) as [st1|] eqn:E;
      cbn [bind]; [|discriminate].
    intro H; injection H as <-. simpl. split; [reflexivity|].
    assert (Hi : st_spec_idx st1 = st_spec_idx st).
    { revert E. unfold vprint_switch, printf, store_count, va_arg.
      repeat (first [break_match | progress cbn [bind]]);
        intro H; try discriminate; injection H as <-; reflexivity. }
    lia.
  - intro H. pose proof (vprint_display_p _ _ _ H) as Hq. split; [exact Hq|].
    revert H. unfold vprint_display, va_arg.
    repeat (first [break_match | progress cbn [bind]]);
      intro H; try discriminate; injection H as <-; simpl; lia.
Qed.

Lemma token_text_head (t : token) (rest : list ascii) :
  tokens_ok [t] = true ->
  exists c y, token_text t ++ rest = c :: y /\ Ascii.eqb c NUL = false.
Proof.
  intro H. cbn [tokens_ok] in H. rewrite andb_true_r in H.
  destruct t as [c| |m|]; simpl;
    eexists; eexists; (split; [reflexivity|]); try reflexivity.
  apply andb_prop in H. destruct H as [H _].
  apply andb_prop in H. destruct H as [_ H].
  apply negb_true_iff in H. exact H.
Qed.

Lemma vprint_loop_tokens (specs : list format_spec_t) (toks : list token) :
  tokens_ok toks = true ->
  forall fuel st,
    (length (tokens_text toks) < fuel)%nat ->
    st_p st = tokens_text toks ++ [NUL] ->
    (forall i e, nth_error (entries toks) i = Some e ->
                 nth_error specs (st_spec_idx st + i) = Some e) ->
    vprint_loop fuel specs st = run_tokens toks st.
Proof.
  induction toks as [|t toks IH]; intros Hok fuel st Hfuel Hp Hnth.
  - destruct fuel as [|fuel]; [simpl in Hfuel; lia|].
    simpl. rewrite Hp. reflexivity.
  - destruct fuel as [|fuel]; [lia|].
    pose proof Hok as Hok'. cbn [tokens_ok] in Hok'.
    apply andb_prop in Hok'. destruct Hok' as [Ht Hrest].
    rewrite tokens_text_cons, <- app_assoc in Hp.
    assert (Ht1 : tokens_ok [t] = true)
      by (cbn [tokens_ok]; rewrite andb_true_r;
          destruct t; try exact Ht;
          apply andb_prop in Ht; destruct Ht as [Ht _];
          rewrite Ht; simpl; rewrite andb_false_r; reflexivity).
    destruct (token_text_head t (tokens_text toks ++ [NUL]) Ht1)
      as (c & y & E & Hc).
    cbn [vprint_loop run_tokens]. rewrite Hp, E. cbn [deref bind].
    rewrite Hc.
    rewrite (vprint_step_token specs t toks st Hok Hp).
    2:{ intros e He. rewrite <- (Nat.add_0_r (st_spec_idx st)).
        apply Hnth. rewrite entries_cons.
        destruct (token_entries t); [discriminate|]. exact He. }
    destruct (token_step t st) as [st'|f] eqn:Est; [|reflexivity].
    cbn [bind]. apply token_step_after in Est. destruct Est as [Hp' Hi'].
    apply IH.
    + exact Hrest.
    + rewrite tokens_text_cons, length_app in Hfuel.
      assert (1 <= length (token_text t))%nat
        by (destruct t; simpl; try lia; apply marker_text_length).
      lia.
    + rewrite Hp', Hp, skipn_app, skipn_all, Nat.sub_diag. reflexivity.
    + intros i e He. rewrite Hi', <- Nat.add_assoc. apply Hnth.
      rewrite entries_cons, nth_error_app2 by lia.
      rewrite Nat.add_comm, Nat.add_sub. exact He.
Qed.

Lemma vprint_on_tokens (toks : list token) (args : list arg) :
  tokens_ok toks = true ->
  display_vprint (Some (template_of toks)) args =
  do st <- run_tokens toks (init (tokens_text toks ++ [NUL]) args);
  Ok (st_spec_count st + st_struct_count st, st).
Proof.
  intro Hok. unfold display_vprint.
  rewrite scanner_on_tokens by exact Hok. cbn [bind].
  rewrite c_array_template_of.
  rewrite (vprint_loop_tokens (entries toks) toks Hok);
    [reflexivity | rewrite length_app; simpl; lia | reflexivity |].
  intros i e He. exact He.
Qed.

(** X4: On a template made of tokens the two passes stay in step: the call
    does what the tokens say one after the other, each marker with its own
    entry. *)
Theorem display_vprint_tokens (toks : list token) (args : list arg) :
  tokens_ok toks = true ->
  display_vprint (Some (template_of toks)) args =
  do st <- run_tokens toks (init (tokens_text toks ++ [NUL]) args);
  Ok (st_spec_count st + st_struct_count st, st).
Proof. intros; eapply vprint_on_tokens; eassumption. Qed.

Lemma vfprint_step_token (file : stream) (specs : list format_spec_t)
  (t : token) (rest : list token) (st : dstate) :
  tokens_ok (t :: rest) = true ->
  st_p st = token_text t ++ tokens_text rest ++ [NUL] ->
  (forall e, nth_error (token_entries t) 0 = Some e ->
             nth_error specs (st_spec_idx st) = Some e) ->
  vfprint_step file specs st = ftoken_step file t st.
Proof.
  intros Hok Hp Hnth. cbn [tokens_ok] in Hok. apply andb_prop in Hok.
  destruct Hok as [Ht _]. unfold vfprint_step, ftoken_step. rewrite Hp.
  destruct t as [c| |m|]; cbn [token_text app length skipn chars
                                list_ascii_of_string].
  - apply andb_prop in Ht. destruct Ht as [Ht Hb].
    apply andb_prop in Ht. destruct Ht as [Hpc _].
    apply negb_true_iff in Hpc, Hb. rewrite Hpc.
    destruct (Ascii.eqb c "{") eqn:Eb; [|reflexivity].
    simpl in Hb. destruct (rest_head rest Hb) as (c1 & y & E & Hc1).
    rewrite E. cbn [deref bind]. rewrite Hc1. reflexivity.
  - reflexivity.
  - destruct (marker_second_char m (tokens_text rest ++ [NUL]) Ht)
      as (c1 & y & E & Hc1).
    rewrite E. cbn [deref bind Ascii.eqb Bool.eqb]. rewrite Hc1. cbn [negb].
    rewrite (Hnth (marker_entry m) eq_refl).
    destruct (vfprint_switch (marker_entry m) st) as [st1|f] eqn:Esw;
      [|reflexivity].
    cbn [bind]. rewrite (vfprint_switch_p _ _ _ Esw), Hp.
    cbn [token_text]. unfold advance.
    cbn [marker_entry substr]. rewrite string_of_list_ascii_length.
    rewrite length_app.
    destruct (Nat.leb_spec (length (marker_text m))
                (length (marker_text m)
                 + length (tokens_text rest ++ [NUL]))) as [_|Hlt];
      [|lia].
    cbn [bind]. rewrite E. reflexivity.
  - reflexivity.
Qed.

Lemma ftoken_step_after (file : stream) (t : token) (st st' : dstate) :
  ftoken_step file t st = Ok st' ->
  st_p st' = skipn (length (token_text t)) (st_p st) /\
  st_spec_idx st' = (st_spec_idx st + length (token_entries t))%nat.
Proof.
  unfold ftoken_step. destruct t as [c| |m|].
  - intro H; injection H as <-. simpl. split; [reflexivity | lia].
  - intro H; injection H as <-. simpl. split; [reflexivity | lia].
  - destruct (vfprint_switch (marker_entry m) st) as [st1|] eqn:E;
      cbn [bind]; [|discriminate].
    intro H; injection H as <-. simpl. split; [reflexivity|].
    assert (Hi : st_spec_idx st1 = st_spec_idx st).
    { revert E. unfold vfprint_switch, fprintf, store_count, va_arg.
      repeat (first [break_match | progress cbn [bind]]);
        intro H; try discriminate; injection H as <-; reflexivity. }
    lia.
  - intro H. pose proof (vfprint_display_p _ _ _ _ H) as Hq.
    split; [exact Hq|].
    revert H. unfold vfprint_display, va_arg.
    repeat (first [break_match | progress cbn [bind]]);
      intro H; try discriminate; injection H as <-; simpl; lia.
Qed.

Lemma vfprint_loop_tokens (file : stream) (specs : list format_spec_t)
  (toks : list token) :
  tokens_ok toks = true ->
  forall fuel st,
    (length (tokens_text toks) < fuel)%nat ->
    st_p st = tokens_text toks ++ [NUL] ->
    (forall i e, nth_error (entries toks) i = Some e ->
                 nth_error specs (st_spec_idx st + i) = Some e) ->
    vfprint_loop fuel file specs st = frun_tokens file toks st.
Proof.
  induction toks as [|t toks IH]; intros Hok fuel st Hfuel Hp Hnth.
  - destruct fuel as [|fuel]; [simpl in Hfuel; lia|].
    simpl. rewrite Hp. reflexivity.
  - destruct fuel as [|fuel]; [lia|].
    pose proof Hok as Hok'. cbn [tokens_ok] in Hok'.
    apply andb_prop in Hok'. destruct Hok' as [Ht Hrest].
    rewrite tokens_text_cons, <- app_assoc in Hp.
    assert (Ht1 : tokens_ok [t] = true)
      by (cbn [tokens_ok]; rewrite andb_true_r;
          destruct t; try exact Ht;
          apply andb_prop in Ht; destruct Ht as [Ht _];
          rewrite Ht; simpl; rewrite andb_false_r; reflexivity).
    destruct (token_text_head t (tokens_text toks ++ [NUL]) Ht1)
      as (c & y & E & Hc).
    cbn [vfprint_loop frun_tokens]. rewrite Hp, E. cbn [deref bind].
    rewrite Hc.
    rewrite (vfprint_step_token file specs t toks st Hok Hp).
    2:{ intros e He. rewrite <- (Nat.add_0_r (st_spec_idx st)).
        apply Hnth. rewrite entries_cons.
        destruct (token_entries t); [discriminate|]. exact He. }
    destruct (ftoken_step file t st) as [st'|f] eqn:Est; [|reflexivity].
    cbn [bind]. apply ftoken_step_after in Est. destruct Est as [Hp' Hi'].
    apply IH.
    + exact Hrest.
    + rewrite tokens_text_cons, length_app in Hfuel.
      assert (1 <= length (token_text t))%nat
        by (destruct t; simpl; try lia; apply marker_text_length).
      lia.
    + rewrite Hp', Hp, skipn_app, skipn_all, Nat.sub_diag. reflexivity.
    + intros i e He. rewrite Hi', <- Nat.add_assoc. apply Hnth.
      rewrite entries_cons, nth_error_app2 by lia.
      rewrite Nat.add_comm, Nat.add_sub. exact He.
Qed.

Lemma vfprint_on_tokens (file : stream) (toks : list token)
  (args : list arg) :
  tokens_ok toks = true ->
  display_vfprint (Some file) (Some (template_of toks)) args =
  do st <- frun_tokens file toks (init (tokens_text toks ++ [NUL]) args);
  Ok (st_spec_count st + st_struct_count st, st).
Proof.
  intro Hok. unfold display_vfprint.
  rewrite scanner_on_tokens by exact Hok. cbn [bind].
  rewrite c_array_template_of.
  rewrite (vfprint_loop_tokens file (entries toks) toks Hok);
    [reflexivity | rewrite length_app; simpl; lia | reflexivity |].
  intros i e He. exact He.
Qed.

(** X5: On a template made of tokens [display_vfprint] stays in step in
    the same way: the call to a stream does what the tokens say one after
    the other, each marker with its own entry. *)
Theorem display_vfprint_tokens (file : stream) (toks : list token)
  (args : list arg) :
  tokens_ok toks = true ->
  display_vfprint (Some file) (Some (template_of toks)) args =
  do st <- frun_tokens file toks (init (tokens_text toks ++ [NUL]) args);
  Ok (st_spec_count st + st_struct_count st, st).
Proof. intros; eapply vfprint_on_tokens; eassumption. Qed.

(** ** Faults on token templates *)

Lemma vprint_switch_BadArg (e : format_spec_t) (st : dstate) (f : fault) :
  vprint_switch e st = Fault f -> f = BadArg.
Proof.
  unfold vprint_switch, printf, store_count, va_arg.
  repeat (first [break_match | progress cbn [bind]]);
    intro H; try discriminate; injection H as <-; reflexivity.
Qed.

Lemma vprint_display_BadArg (q : ptr) (st : dstate) (f : fault) :
  vprint_display q st = Fault f -> f = BadArg.
Proof.
  unfold vprint_display, va_arg.
  repeat (first [break_match | progress cbn [bind]]);
    intro H; try discriminate; injection H as <-; reflexivity.
Qed.

Lemma run_tokens_BadArg (toks : list token) (st : dstate) (f : fault) :
  run_tokens toks st = Fault f -> f = BadArg.
Proof.
  revert st; induction toks as [|t toks IH]; intros st; simpl;
    [discriminate|].
  destruct (token_step t st) as [st'|f'] eqn:E; cbn [bind]; [apply IH|].
  intro H; injection H as <-. revert E. unfold token_step.
  destruct t as [c| |m|]; try discriminate.
  - destruct (vprint_switch (marker_entry m) st) eqn:Esw; cbn [bind];
      [discriminate|].
    intro H; injection H as <-. exact (vprint_switch_BadArg _ _ _ Esw).
  - apply vprint_display_BadArg.
Qed.

(** X6: On a template made of tokens no read leaves the template: the only
    fault of a call is an argument that is missing or of the wrong kind. *)
Theorem display_vprint_tokens_faults (toks : list token) (args : list arg)
  (f : fault) :
  tokens_ok toks = true ->
  display_vprint (Some (template_of toks)) args = Fault f -> f = BadArg.
Proof.
  intros Hok. rewrite vprint_on_tokens by exact Hok.
  destruct (run_tokens toks _) as [st|f'] eqn:E; cbn [bind]; [discriminate|].
  intro H; injection H as <-. exact (run_tokens_BadArg _ _ _ E).
Qed.

(** ** Plain text *)

Lemma plain_text_tokens (l : list ascii) :
  plain_text l = true -> tokens_ok (map TLit l) = true.
Proof.
  induction l as [|c l IH]; simpl; intro H; [reflexivity|].
  apply andb_prop in H. destruct H as [H Hl].
  rewrite (IH Hl), andb_true_r.
  destruct l as [|c' l']; exact H.
Qed.

Lemma tokens_text_lits (l : list ascii) : tokens_text (map TLit l) = l.
Proof. induction l as [|c l IH]; simpl; [reflexivity | f_equal; exact IH]. Qed.

Lemma run_tokens_lits (l : list ascii) (st : dstate) :
  exists st',
    run_tokens (map TLit l) st = Ok st' /\
    st_stdout st' = st_stdout st ++ map EvChar l /\
    st_args st' = st_args st /\ st_mem st' = st_mem st /\
    st_file st' = st_file st /\
    st_spec_count st' = st_spec_count st /\
    st_struct_count st' = st_struct_count st.
Proof.
  revert st; induction l as [|c l IH]; intro st; simpl.
  - exists st. rewrite app_nil_r. repeat split.
  - destruct (IH (with_p (skipn 1 (st_p st)) (putchar c st)))
      as (st' & Hrun & Hout & Hrest).
    exists st'. split; [exact Hrun|]. split; [|exact Hrest].
    rewrite Hout. simpl. rewrite <- app_assoc. reflexivity.
Qed.

Lemma frun_tokens_lits (file : stream) (l : list ascii) (st : dstate) :
  exists st',
    frun_tokens file (map TLit l) st = Ok st' /\
    st_file st' = st_file st ++ map EvChar l /\
    st_args st' = st_args st /\ st_mem st' = st_mem st /\
    st_stdout st' = st_stdout st /\
    st_spec_count st' = st_spec_count st /\
    st_struct_count st' = st_struct_count st.
Proof.
  revert st; induction l as [|c l IH]; intro st; simpl.
  - exists st. rewrite app_nil_r. repeat split.
  - destruct (IH (with_p (skipn 1 (st_p st)) (putc c st)))
      as (st' & Hrun & Hout & Hrest).
    exists st'. split; [exact Hrun|]. split; [|exact Hrest].
    rewrite Hout. simpl. rewrite <- app_assoc. reflexivity.
Qed.

Lemma sink_text_chars (native : string -> c_type -> arg -> string)
  (l : list ascii) :
  sink_text native (map EvChar l) = string_of_list_ascii l.
Proof.
  induction l as [|c l IH]; simpl; [reflexivity | f_equal; exact IH].
Qed.

(** X8: A template without percent sign and without the delimiter ["{}"] is
    copied to the sink character by character, so that the text of the sink
    is the template; the call returns 0, takes no argument and writes
    through no pointer. *)
Theorem display_plain_text (file : stream) (s : string) (args : list arg) :
  plain_text (chars s) = true ->
  (exists st,
     display_vprint (Some s) args = Ok (0, st) /\
     st_stdout st = map EvChar (chars s) /\
     (forall native, sink_text native (st_stdout st) = s) /\
     st_args st = args /\ st_mem st = [] /\ st_file st = []) /\
  (exists st,
     display_vfprint (Some file) (Some s) args = Ok (0, st) /\
     st_file st = map EvChar (chars s) /\
     (forall native, sink_text native (st_file st) = s) /\
     st_args st = args /\ st_mem st = [] /\ st_stdout st = []).
Proof.
  intro Hplain.
  assert (Hs : template_of (map TLit (chars s)) = s)
    by (unfold template_of, chars; rewrite tokens_text_lits;
        apply string_of_list_ascii_of_string).
  pose proof (plain_text_tokens _ Hplain) as Hok.
  split.
  - pose proof (vprint_on_tokens _ args Hok) as Hv.
    rewrite Hs in Hv. rewrite Hv.
    destruct (run_tokens_lits (chars s)
                (init (tokens_text (map TLit (chars s)) ++ [NUL]) args))
      as (st & Hrun & Hout & Ha & Hm & Hf & Hc1 & Hc2).
    rewrite Hrun. cbn [bind]. exists st.
    rewrite Hc1, Hc2. simpl in Hout.
    repeat split; try assumption.
    intro native. rewrite Hout, sink_text_chars.
    apply string_of_list_ascii_of_string.
  - pose proof (vfprint_on_tokens file _ args Hok) as Hv.
    rewrite Hs in Hv. rewrite Hv.
    destruct (frun_tokens_lits file (chars s)
                (init (tokens_text (map TLit (chars s)) ++ [NUL]) args))
      as (st & Hrun & Hout & Ha & Hm & Hf & Hc1 & Hc2).
    rewrite Hrun. cbn [bind]. exists st.
    rewrite Hc1, Hc2. simpl in Hout.
    repeat split; try assumption.
    intro native. rewrite Hout, sink_text_chars.
    apply string_of_list_ascii_of_string.
Qed.

(** ** The returned value *)

Lemma vprint_step_counts (specs : list format_spec_t) (st st' : dstate) :
  vprint_step specs st = Ok st' ->
  st_spec_count st <= st_spec_count st' /\
  st_struct_count st <= st_struct_count st' /\
  st_spec_count st' + st_struct_count st'
  <= st_spec_count st + st_struct_count st + 1.
Proof.
  unfold vprint_step, vprint_display, vprint_switch, printf, store_count,
    va_arg, advance, deref.
  repeat (first [break_match | progress cbn [bind]]);
    intro H; try discriminate; injection H as <-; simpl; lia.
Qed.

Lemma vfprint_step_counts (file : stream) (specs : list format_spec_t)
  (st st' : dstate) :
  vfprint_step file specs st = Ok st' ->
  st_spec_count st <= st_spec_count st' /\
  st_struct_count st <= st_struct_count st' /\
  st_spec_count st' + st_struct_count st'
  <= st_spec_count st + st_struct_count st + 1.
Proof.
  unfold vfprint_step, vfprint_display, vfprint_switch, fprintf, store_count,
    va_arg, advance, deref.
  repeat (first [break_match | progress cbn [bind]]);
    intro H; try discriminate; injection H as <-; simpl; lia.
Qed.

Lemma vprint_loop_counts (fuel : nat) (specs : list format_spec_t)
  (st st' : dstate) :
  Forall nonempty_substr specs ->
  vprint_loop fuel specs st = Ok st' ->
  st_spec_count st <= st_spec_count st' /\
  st_struct_count st <= st_struct_count st' /\
  st_spec_count st' + st_struct_count st' + Z.of_nat (length (st_p st'))
  <= st_spec_count st + st_struct_count st + Z.of_nat (length (st_p st)) /\
  (1 <= length (st_p st'))%nat.
Proof.
  intro Hs. revert st; induction fuel as [|fuel IH]; intros st;
    [discriminate|].
  cbn [vprint_loop].
  destruct (st_p st) as [|c q] eqn:Ep; cbn [deref bind]; [discriminate|].
  destruct (Ascii.eqb c NUL).
  - intro H; injection H as <-. rewrite Ep. simpl. lia.
  - destruct (vprint_step specs st) as [st1|] eqn:E; cbn [bind];
      [|discriminate].
    intro H. apply IH in H.
    pose proof (vprint_step_counts _ _ _ E).
    pose proof (vprint_step_length _ _ _ Hs E) as Hl.
    rewrite Ep in Hl. simpl length in *. lia.
Qed.

Lemma vfprint_loop_counts (fuel : nat) (file : stream)
  (specs : list format_spec_t) (st st' : dstate) :
  Forall nonempty_substr specs ->
  vfprint_loop fuel file specs st = Ok st' ->
  st_spec_count st <= st_spec_count st' /\
  st_struct_count st <= st_struct_count st' /\
  st_spec_count st' + st_struct_count st' + Z.of_nat (length (st_p st'))
  <= st_spec_count st + st_struct_count st + Z.of_nat (length (st_p st)) /\
  (1 <= length (st_p st'))%nat.
Proof.
  intro Hs. revert st; induction fuel as [|fuel IH]; intros st;
    [discriminate|].
  cbn [vfprint_loop].
  destruct (st_p st) as [|c q] eqn:Ep; cbn [deref bind]; [discriminate|].
  destruct (Ascii.eqb c NUL).
  - intro H; injection H as <-. rewrite Ep. simpl. lia.
  - destruct (vfprint_step file specs st) as [st1|] eqn:E; cbn [bind];
      [|discriminate].
    intro H. apply IH in H.
    pose proof (vfprint_step_counts _ _ _ _ E).
    pose proof (vfprint_step_length _ _ _ _ Hs E) as Hl.
    rewrite Ep in Hl. simpl length in *. lia.
Qed.

Lemma c_array_length (s : string) :
  length (c_array s) = S (String.length s).
Proof.
  unfold c_array. rewrite length_app. simpl.
  rewrite Nat.add_1_r. f_equal.
  induction s as [|c s IH]; simpl; [reflexivity | f_equal; exact IH].
Qed.

Lemma vprint_return_range (format : option string) (args : list arg)
  (r : Z) (st : dstate) :
  display_vprint format args = Ok (r, st) ->
  (r = -1 <-> format = None) /\
  (forall s, format = Some s -> 0 <= r <= Z.of_nat (String.length s)).
Proof.
  unfold display_vprint. destruct format as [s|].
  - destruct (find_format_specifiers (Some s)) as [specs|] eqn:Esc;
      cbn [bind]; [|discriminate].
    destruct (vprint_loop _ specs _) as [st1|] eqn:El; cbn [bind];
      [|discriminate].
    intro H; injection H as <- <-.
    apply vprint_loop_counts in El;
      [|exact (find_format_specifiers_substr _ _ Esc)].
    cbn [init st_spec_count st_struct_count st_p] in El.
    rewrite c_array_length in El.
    split.
    + split; [lia | discriminate].
    + intros s' Hs'. injection Hs' as <-. lia.
  - intro H; injection H as <- <-.
    split; [split; reflexivity | discriminate].
Qed.

(** X9: The value [display_vprint] returns: -1 for the null template and for
    it alone, otherwise a count between 0 and the length of the template. *)
Theorem display_vprint_returns (format : option string) (args : list arg)
  (r : Z) (st : dstate) :
  display_vprint format args = Ok (r, st) ->
  (r = -1 <-> format = None) /\
  (forall s, format = Some s -> 0 <= r <= Z.of_nat (String.length s)).
Proof. intros; eapply vprint_return_range; eassumption. Qed.

Lemma vfprint_return_range (file : option stream)
  (format : option string) (args : list arg) (r : Z) (st : dstate) :
  display_vfprint file format args = Ok (r, st) ->
  (r = -1 <-> format = None \/ file = None) /\
  (forall s f, format = Some s -> file = Some f ->
               0 <= r <= Z.of_nat (String.length s)).
Proof.
  unfold display_vfprint. destruct format as [s|], file as [f0|];
    try (intro H; injection H as <- <-;
         split; [split; [auto | reflexivity] | discriminate]).
  destruct (find_format_specifiers (Some s)) as [specs|] eqn:Esc;
    cbn [bind]; [|discriminate].
  destruct (vfprint_loop _ f0 specs _) as [st1|] eqn:El; cbn [bind];
    [|discriminate].
  intro H; injection H as <- <-.
  apply vfprint_loop_counts in El;
    [|exact (find_format_specifiers_substr _ _ Esc)].
  cbn [init st_spec_count st_struct_count st_p] in El.
  rewrite c_array_length in El.
  split.
  - split; [lia | intros [H|H]; discriminate].
  - intros s' f' Hs' _. injection Hs' as <-. lia.
Qed.

(** X10: The value [display_vfprint] returns: -1 when the template or the
    stream
    is null and only then, otherwise a count between 0 and the length of the
    template. *)
Theorem display_vfprint_returns (file : option stream)
  (format : option string) (args : list arg) (r : Z) (st : dstate) :
  display_vfprint file format args = Ok (r, st) ->
  (r = -1 <-> format = None \/ file = None) /\
  (forall s f, format = Some s -> file = Some f ->
               0 <= r <= Z.of_nat (String.length s)).
Proof. intros; eapply vfprint_return_range; eassumption. Qed.

(** ** The line variants *)

(** X11: [display_vprintln] (and [display_println], which passes its arguments
    on) ends as [display_vprint] does, with one line terminator more on
    standard output exactly when the template is not null. *)
Theorem display_vprintln_newline (format : option string) (args : list arg) :
  display_println format args = display_vprintln format args /\
  display_vprintln format args =
  match display_vprint format args with
  | Ok (r, st) =>
    Ok (r, match format with
           | Some _ => putchar newline st
           | None => st
           end)
  | Fault f => Fault f
  end.
Proof.
  split; [reflexivity|]. unfold display_vprintln.
  destruct (display_vprint format args) as [[r st]|f] eqn:E; [|reflexivity].
  cbn [bind]. apply vprint_return_range in E. destruct E as [[H1 H2] _].
  destruct format as [s|].
  - destruct (r =? -1) eqn:Er; [|reflexivity].
    apply Z.eqb_eq in Er. apply H1 in Er. discriminate.
  - rewrite (H2 eq_refl). reflexivity.
Qed.

(** X12: [display_vfprintln] (and [display_fprintln]) ends as [display_vfprint]
    does, with one line terminator more in the stream exactly when neither
    the template nor the stream is null. *)
Theorem display_vfprintln_newline (file : option stream)
  (format : option string) (args : list arg) :
  display_fprintln file format args = display_vfprintln file format args /\
  display_vfprintln file format args =
  match display_vfprint file format args with
  | Ok (r, st) =>
    Ok (r, match format, file with
           | Some _, Some _ => putc newline st
           | _, _ => st
           end)
  | Fault f => Fault f
  end.
Proof.
  split; [reflexivity|]. unfold display_vfprintln.
  destruct (display_vfprint file format args) as [[r st]|f] eqn:E;
    [|reflexivity].
  cbn [bind]. apply vfprint_return_range in E. destruct E as [[H1 H2] _].
  destruct format as [s|], file as [f0|];
    try (rewrite H2 by auto; reflexivity).
  destruct (r =? -1) eqn:Er; [|reflexivity].
  apply Z.eqb_eq in Er. apply H1 in Er. destruct Er; discriminate.
Qed.

(** ** The argument cursor *)

Lemma vfprint_step_args (file : stream) (specs : list format_spec_t)
  (st st' : dstate) :
  vfprint_step file specs st = Ok st' ->
  exists used, st_args st = used ++ st_args st'.
Proof.
  unfold vfprint_step, vfprint_display, vfprint_switch, fprintf, store_count,
    va_arg, advance, deref.
  destruct (st_args st) as [|a rest] eqn:Ea;
    repeat (first [break_match | progress cbn [bind]]);
    intro H; try discriminate; injection H as <-;
    first [ exists []; simpl; congruence | exists [a]; simpl; congruence ].
Qed.

Lemma vprint_loop_args (fuel : nat) (specs : list format_spec_t)
  (st st' : dstate) :
  vprint_loop fuel specs st = Ok st' ->
  exists used, st_args st = used ++ st_args st'.
Proof.
  revert st; induction fuel as [|fuel IH]; intro st; [discriminate|].
  cbn [vprint_loop].
  destruct (deref (st_p st)) as [c|]; cbn [bind]; [|discriminate].
  destruct (Ascii.eqb c NUL).
  - intro H; injection H as <-. exists []. reflexivity.
  - destruct (vprint_step specs st) as [st1|] eqn:E; cbn [bind];
      [|discriminate].
    intro H. apply IH in H. destruct H as [u2 H2].
    destruct (vprint_step_args _ _ _ E) as [u1 H1].
    exists (u1 ++ u2). rewrite H1, H2, app_assoc. reflexivity.
Qed.

Lemma vfprint_loop_args (fuel : nat) (file : stream)
  (specs : list format_spec_t) (st st' : dstate) :
  vfprint_loop fuel file specs st = Ok st' ->
  exists used, st_args st = used ++ st_args st'.
Proof.
  revert st; induction fuel as [|fuel IH]; intro st; [discriminate|].
  cbn [vfprint_loop].
  destruct (deref (st_p st)) as [c|]; cbn [bind]; [|discriminate].
  destruct (Ascii.eqb c NUL).
  - intro H; injection H as <-. exists []. reflexivity.
  - destruct (vfprint_step file specs st) as [st1|] eqn:E; cbn [bind];
      [|discriminate].
    intro H. apply IH in H. destruct H as [u2 H2].
    destruct (vfprint_step_args _ _ _ _ E) as [u1 H1].
    exists (u1 ++ u2). rewrite H1, H2, app_assoc. reflexivity.
Qed.

(** X13: The cursor is drained from the front and never rewound: what a call
    leaves of the arguments is a tail of what it was given. *)
Theorem display_cursor_tail (file : option stream) (format : option string)
  (args : list arg) (r : Z) (st : dstate) :
  display_vprint format args = Ok (r, st) \/
  display_vfprint file format args = Ok (r, st) ->
  exists used, args = used ++ st_args st.
Proof.
  intros [H|H].
  - unfold display_vprint in H. destruct format as [s|].
    + destruct (find_format_specifiers (Some s)) as [specs|];
        cbn [bind] in H; [|discriminate].
      destruct (vprint_loop _ specs _) as [st1|] eqn:El; cbn [bind] in H;
        [|discriminate].
      injection H as _ <-. exact (vprint_loop_args _ _ _ _ El).
    + injection H as _ <-. exists []. reflexivity.
  - unfold display_vfprint in H. destruct format as [s|], file as [f0|];
      try (injection H as _ <-; exists []; reflexivity).
    destruct (find_format_specifiers (Some s)) as [specs|];
      cbn [bind] in H; [|discriminate].
    destruct (vfprint_loop _ f0 specs _) as [st1|] eqn:El; cbn [bind] in H;
      [|discriminate].
    injection H as _ <-. exact (vfprint_loop_args _ _ _ _ _ El).
Qed.

(** ** Stores through pointers *)

Lemma skip_flags_incl (p q : ptr) :
  skip_flags p = Ok q -> incl q p.
Proof.
  revert q; induction p as [|c p IH]; simpl; intros q H; [discriminate|].
  destruct (strchr "-+ #0" c).
  - apply incl_tl. apply IH. exact H.
  - injection H as <-. apply incl_refl.
Qed.

Lemma skip_digits_incl (p q : ptr) :
  skip_digits p = Ok q -> incl q p.
Proof.
  revert q; induction p as [|c p IH]; simpl; intros q H; [discriminate|].
  destruct (isdigit c).
  - apply incl_tl. apply IH. exact H.
  - injection H as <-. apply incl_refl.
Qed.

Lemma skip_width_incl (p q : ptr) :
  skip_width p = Ok q -> incl q p.
Proof.
  unfold skip_width. destruct p as [|c p]; simpl; [discriminate|].
  destruct (Ascii.eqb c "*"); intro H.
  - injection H as <-. apply incl_tl, incl_refl.
  - apply (skip_digits_incl (c :: p)). exact H.
Qed.

Lemma skip_precision_incl (p q : ptr) :
  skip_precision p = Ok q -> incl q p.
Proof.
  unfold skip_precision. destruct p as [|c p]; simpl; [discriminate|].
  destruct (Ascii.eqb c ".").
  - destruct p as [|c' p]; simpl; [discriminate|].
    destruct (Ascii.eqb c' "*"); intro H.
    + injection H as <-. apply incl_tl, incl_tl, incl_refl.
    + apply incl_tl. apply (skip_digits_incl (c' :: p)). exact H.
  - intro H; injection H as <-. apply incl_refl.
Qed.

Lemma read_length_incl (p q : ptr) (len : list ascii) :
  read_length p = Ok (len, q) -> incl q p.
Proof.
  unfold read_length. destruct p as [|c p]; simpl; [discriminate|].
  destruct (strchr "hljztL" c).
  - destruct p as [|c' p]; simpl; [discriminate|].
    destruct ((Ascii.eqb c' "h" || Ascii.eqb c' "l")
              && (Ascii.eqb c "h" || Ascii.eqb c "l"));
      intro H; injection H as _ <-.
    + apply incl_tl, incl_tl, incl_refl.
    + apply incl_tl, incl_refl.
  - intro H; injection H as _ <-. apply incl_refl.
Qed.

Lemma get_type_write_count (len : list ascii) (c : ascii) (t : var_type)
  (x : c_type) :
  get_type len c = Some t -> write_count_tag t = Some x -> c = "n"%char.
Proof.
  unfold get_type.
  destruct (Ascii.eqb c "%"); [intro H; injection H as <-; discriminate|].
  destruct (Ascii.eqb c "p"); [intro H; injection H as <-; discriminate|].
  destruct (Ascii.eqb c "c"); [intro H; injection H as <-; discriminate|].
  destruct (Ascii.eqb c "s"); [intro H; injection H as <-; discriminate|].
  destruct (Ascii.eqb c "n") eqn:En;
    [intros _ _; apply Ascii.eqb_eq; exact En|].
  destruct (strchr "di" c);
    [unfold signed_type; repeat break_match;
     intro H; injection H as <-; discriminate|].
  destruct (strchr "ouxX" c);
    [unfold unsigned_type; repeat break_match;
     intro H; injection H as <-; discriminate|].
  destruct (strchr "eEfFgGaA" c); [|discriminate].
  repeat break_match; intro H; injection H as <-; discriminate.
Qed.

Lemma scan_marker_incl (start p : ptr) (entry : option format_spec_t) :
  scan_marker start = Ok (p, entry) ->
  incl p start /\
  (forall e x, entry = Some e -> write_count_tag (type e) = Some x ->
               In "n"%char start).
Proof.
  unfold scan_marker.
  destruct (skip_flags (tl start)) as [p1|] eqn:E1; cbn [bind];
    [|discriminate].
  destruct (skip_width p1) as [p2|] eqn:E2; cbn [bind]; [|discriminate].
  destruct (skip_precision p2) as [p3|] eqn:E3; cbn [bind]; [|discriminate].
  destruct (read_length p3) as [[len p4]|] eqn:E4; cbn [bind];
    [|discriminate].
  apply skip_flags_incl in E1. apply skip_width_incl in E2.
  apply skip_precision_incl in E3. apply read_length_incl in E4.
  assert (H4 : incl p4 start).
  { intros c Hc. apply E4, E3, E2, E1 in Hc.
    destruct start; [contradiction | right; exact Hc]. }
  destruct p4 as [|c p5]; cbn [deref bind tl]; [discriminate|].
  destruct (strchr "diouxXeEfFgGaAcspn%" c).
  - destruct (get_type len c) as [t|] eqn:Et; intro H; injection H as <- <-.
    + split; [intros a Ha; apply H4; right; exact Ha|].
      intros e x He Hx. injection He as <-. simpl in Hx.
      rewrite <- (get_type_write_count _ _ _ _ Et Hx).
      apply H4. left. reflexivity.
    + split; [intros a Ha; apply H4; right; exact Ha | discriminate].
  - intro H; injection H as <- <-. split; [exact H4 | discriminate].
Qed.

Lemma scan_loop_no_write_count (fuel : nat) (p : ptr)
  (acc specs : list format_spec_t) :
  ~ In "n"%char p -> no_write_count acc ->
  scan_loop fuel p acc = Ok specs -> no_write_count specs.
Proof.
  revert p acc; induction fuel as [|fuel IH]; intros p acc Hn Hacc;
    [discriminate|].
  cbn [scan_loop]. destruct p as [|c q]; cbn [deref bind tl]; [discriminate|].
  destruct (Ascii.eqb c NUL); [intro H; injection H as <-; exact Hacc|].
  destruct (Ascii.eqb c "%").
  - destruct q as [|c1 q']; cbn [deref bind tl]; [discriminate|].
    destruct (Ascii.eqb c1 "%").
    + apply IH; [|exact Hacc]. intro H. apply Hn. right. right. exact H.
    + destruct (scan_marker (c :: c1 :: q')) as [[p' entry]|] eqn:E;
        cbn [bind]; [|discriminate].
      apply scan_marker_incl in E. destruct E as [Hincl Hw].
      assert (Hn' : ~ In "n"%char p') by (intro H; apply Hn, Hincl, H).
      destruct entry as [e|]; apply IH; try assumption.
      apply Forall_app. split; [exact Hacc|].
      constructor; [|constructor].
      destruct (write_count_tag (type e)) as [x|] eqn:Ex; [|reflexivity].
      exfalso. apply Hn. exact (Hw e x eq_refl Ex).
  - apply IH; [|exact Hacc]. intro H. apply Hn. right. exact H.
Qed.

Lemma vprint_step_mem (specs : list format_spec_t) (st st' : dstate) :
  no_write_count specs ->
  vprint_step specs st = Ok st' -> st_mem st' = st_mem st.
Proof.
  intro Hs. unfold vprint_step.
  destruct (st_p st) as [|c q]; [discriminate|].
  destruct (Ascii.eqb c "%").
  - destruct q as [|c1 q']; cbn [deref bind]; [discriminate|].
    destruct (negb (Ascii.eqb c1 "%")).
    + destruct (nth_error specs (st_spec_idx st)) as [e|] eqn:En.
      * apply nth_error_In in En.
        unfold no_write_count in Hs. rewrite Forall_forall in Hs.
        specialize (Hs e En).
        unfold vprint_switch, printf, store_count, va_arg, advance.
        destruct (type e); try discriminate;
          repeat (first [break_match | progress cbn [bind]]);
          intro H; try discriminate; injection H as <-; reflexivity.
      * intro H; injection H as <-; reflexivity.
    + intro H; injection H as <-; reflexivity.
  - unfold vprint_display, va_arg, deref.
    repeat (first [break_match | progress cbn [bind]]);
      intro H; try discriminate; injection H as <-; reflexivity.
Qed.

Lemma vfprint_step_mem (file : stream) (specs : list format_spec_t)
  (st st' : dstate) :
  no_write_count specs ->
  vfprint_step file specs st = Ok st' -> st_mem st' = st_mem st.
Proof.
  intro Hs. unfold vfprint_step.
  destruct (st_p st) as [|c q]; [discriminate|].
  destruct (Ascii.eqb c "%").
  - destruct q as [|c1 q']; cbn [deref bind]; [discriminate|].
    destruct (negb (Ascii.eqb c1 "%")).
    + destruct (nth_error specs (st_spec_idx st)) as [e|] eqn:En.
      * apply nth_error_In in En.
        unfold no_write_count in Hs. rewrite Forall_forall in Hs.
        specialize (Hs e En).
        unfold vfprint_switch, fprintf, store_count, va_arg, advance.
        destruct (type e); try discriminate;
          repeat (first [break_match | progress cbn [bind]]);
          intro H; try discriminate; injection H as <-; reflexivity.
      * intro H; injection H as <-; reflexivity.
    + intro H; injection H as <-; reflexivity.
  - unfold vfprint_display, va_arg, deref.
    repeat (first [break_match | progress cbn [bind]]);
      intro H; try discriminate; injection H as <-; reflexivity.
Qed.

Lemma vprint_loop_mem (fuel : nat) (specs : list format_spec_t)
  (st st' : dstate) :
  no_write_count specs ->
  vprint_loop fuel specs st = Ok st' -> st_mem st' = st_mem st.
Proof.
  intro Hs. revert st; induction fuel as [|fuel IH]; intro st;
    [discriminate|].
  cbn [vprint_loop].
  destruct (deref (st_p st)) as [c|]; cbn [bind]; [|discriminate].
  destruct (Ascii.eqb c NUL); [intro H; injection H as <-; reflexivity|].
  destruct (vprint_step specs st) as [st1|] eqn:E; cbn [bind];
    [|discriminate].
  intro H. apply IH in H. rewrite H. exact (vprint_step_mem _ _ _ Hs E).
Qed.

Lemma vfprint_loop_mem (fuel : nat) (file : stream)
  (specs : list format_spec_t) (st st' : dstate) :
  no_write_count specs ->
  vfprint_loop fuel file specs st = Ok st' -> st_mem st' = st_mem st.
Proof.
  intro Hs. revert st; induction fuel as [|fuel IH]; intro st;
    [discriminate|].
  cbn [vfprint_loop].
  destruct (deref (st_p st)) as [c|]; cbn [bind]; [|discriminate].
  destruct (Ascii.eqb c NUL); [intro H; injection H as <-; reflexivity|].
  destruct (vfprint_step file specs st) as [st1|] eqn:E; cbn [bind];
    [|discriminate].
  intro H. apply IH in H. rewrite H. exact (vfprint_step_mem _ _ _ _ Hs E).
Qed.

(** X14: A template without the letter [n] writes through no pointer, whatever
    the arguments are. *)
Theorem display_no_n_no_store (file : option stream) (s : string)
  (args : list arg) (r : Z) (st : dstate) :
  ~ In "n"%char (chars s) ->
  display_vprint (Some s) args = Ok (r, st) \/
  display_vfprint file (Some s) args = Ok (r, st) ->
  st_mem st = [].
Proof.
  intros Hn H.
  assert (Hspecs : forall specs,
             find_format_specifiers (Some s) = Ok specs ->
             no_write_count specs).
  { intros specs Hsc. unfold find_format_specifiers in Hsc.
    revert Hsc. apply scan_loop_no_write_count; [|constructor].
    unfold c_array. intro Hin. apply in_app_or in Hin.
    destruct Hin as [Hin|[Hin|[]]]; [exact (Hn Hin) | discriminate]. }
  destruct H as [H|H].
  - unfold display_vprint in H.
    destruct (find_format_specifiers (Some s)) as [specs|];
      cbn [bind] in H; [|discriminate].
    destruct (vprint_loop _ specs _) as [st1|] eqn:El; cbn [bind] in H;
      [|discriminate].
    injection H as _ <-.
    exact (vprint_loop_mem _ _ _ _ (Hspecs specs eq_refl) El).
  - unfold display_vfprint in H. destruct file as [f0|].
    + destruct (find_format_specifiers (Some s)) as [specs|];
        cbn [bind] in H; [|discriminate].
      destruct (vfprint_loop _ f0 specs _) as [st1|] eqn:El;
        cbn [bind] in H; [|discriminate].
      injection H as _ <-.
      exact (vfprint_loop_mem _ _ _ _ _ (Hspecs specs eq_refl) El).
    + injection H as _ <-. reflexivity.
Qed.

(** ** The entries of the scanner *)

Lemma get_type_not_float (len : list ascii) (c : ascii) (t : var_type) :
  get_type len c = Some t -> t <> TYPE_FLOAT.
Proof.
  unfold get_type, signed_type, unsigned_type, reference_type.
  repeat break_match; intro H; try discriminate; injection H as <-;
    discriminate.
Qed.

Lemma scan_marker_shape (q p : ptr) (e : format_spec_t) :
  scan_marker ("%"%char :: q) = Ok (p, Some e) -> entry_shape e.
Proof.
  unfold scan_marker; simpl tl.
  destruct (skip_flags q) as [p1|] eqn:E1; simpl; [|discriminate].
  destruct (skip_width p1) as [p2|] eqn:E2; simpl; [|discriminate].
  destruct (skip_precision p2) as [p3|] eqn:E3; simpl; [|discriminate].
  destruct (read_length p3) as [[len p4]|] eqn:E4; simpl; [|discriminate].
  apply skip_flags_length in E1. apply skip_width_length in E2.
  apply skip_precision_length in E3. apply read_length_length in E4.
  destruct p4 as [|c p5]; cbn [deref bind tl length]; [discriminate|].
  simpl in E4.
  destruct (strchr "diouxXeEfFgGaAcspn%" c); [|discriminate].
  assert (Hn : exists m, (S (length q) - length p5 = S m)%nat)
    by (exists (length q - length p5)%nat; lia).
  destruct Hn as [m Hm].
  change (match length p5 with
          | O => S (length q)
          | S l => length q - l
          end)%nat with (S (length q) - length p5)%nat.
  rewrite Hm. simpl.
  destruct (get_type len c) as [t|] eqn:Et; [|discriminate].
  intro H; injection H as _ <-. split.
  - exact (get_type_not_float _ _ _ Et).
  - simpl. eexists. reflexivity.
Qed.

Lemma scan_loop_shape (fuel : nat) (p : ptr)
  (acc specs : list format_spec_t) :
  Forall entry_shape acc ->
  scan_loop fuel p acc = Ok specs -> Forall entry_shape specs.
Proof.
  revert p acc; induction fuel as [|fuel IH]; intros p acc Hacc;
    [discriminate|].
  cbn [scan_loop]. destruct p as [|c q]; cbn [deref bind tl]; [discriminate|].
  destruct (Ascii.eqb c NUL); [intro H; injection H as <-; exact Hacc|].
  destruct (Ascii.eqb c "%") eqn:Ec; [|apply IH; exact Hacc].
  apply Ascii.eqb_eq in Ec; subst c.
  destruct q as [|c1 q']; cbn [deref bind tl]; [discriminate|].
  destruct (Ascii.eqb c1 "%"); [apply IH; exact Hacc|].
  destruct (scan_marker ("%"%char :: c1 :: q')) as [[p' entry]|] eqn:E;
    cbn [bind]; [|discriminate].
  destruct entry as [e|]; apply IH; [|exact Hacc].
  apply Forall_app. split; [exact Hacc|].
  constructor; [exact (scan_marker_shape _ _ _ E) | constructor].
Qed.

(** X15: Whatever the template, an entry of the scanner holds a rule that begins
    with the percent sign, and no entry has the tag [TYPE_FLOAT]: that case
    of the drivers' [switch] is never reached. *)
Theorem find_format_specifiers_shape (format : option string)
  (specs : list format_spec_t) :
  find_format_specifiers format = Ok specs -> Forall entry_shape specs.
Proof.
  destruct format as [s|]; unfold find_format_specifiers; [|discriminate].
  apply scan_loop_shape. constructor.
Qed.

(** ** Arguments and counts on token templates *)

Lemma marker_entry_consumes (m : marker) (st st' : dstate) :
  marker_ok m = true ->
  vprint_switch (marker_entry m) st = Ok st' ->
  length (st_args st) = S (length (st_args st')) /\
  st_spec_count st' = st_spec_count st /\
  st_struct_count st' = st_struct_count st.
Proof.
  intro Hm. unfold marker_ok in Hm.
  repeat (apply andb_prop in Hm; destruct Hm as [Hm ?]).
  assert (Hc : In (m_conv m) (chars "diouxXeEfFgGaAcspn")).
  { match goal with
    | Hv : conv_ok _ = true |- _ =>
      unfold conv_ok in Hv; apply existsb_exists in Hv;
        destruct Hv as (x & Hin & Heq); apply Ascii.eqb_eq in Heq;
        subst x; exact Hin
    end. }
  unfold vprint_switch, marker_entry. cbn [type substr].
  simpl in Hc.
  repeat (destruct Hc as [<-|Hc];
          [ cbv [get_type Ascii.eqb Bool.eqb strchr orb NUL Ascii.zero
                 existsb list_ascii_of_string];
            cbv [signed_type unsigned_type reference_type];
            unfold printf, store_count, va_arg;
            destruct (st_args st) as [|a rest];
            repeat (first [break_match | progress cbn [bind]]);
            intro Hr; try discriminate; injection Hr as <-;
            simpl; repeat split |]).
  contradiction.
Qed.

Lemma token_step_arguments (t : token) (st st' : dstate) :
  tokens_ok [t] = true ->
  token_step t st = Ok st' ->
  length (st_args st) = (token_arguments t + length (st_args st'))%nat /\
  st_spec_count st' =
    st_spec_count st + Z.of_nat (length (token_entries t)) /\
  st_struct_count st <= st_struct_count st'
    <= st_struct_count st + Z.of_nat (token_opaque t).
Proof.
  intro Hok. cbn [tokens_ok] in Hok. rewrite andb_true_r in Hok.
  unfold token_step. destruct t as [c| |m|].
  - intro H; injection H as <-. simpl. repeat split; lia.
  - intro H; injection H as <-. simpl. repeat split; lia.
  - destruct (vprint_switch (marker_entry m) st) as [st1|] eqn:E;
      cbn [bind]; [|discriminate].
    intro H; injection H as <-.
    destruct (marker_entry_consumes m st st1 Hok E) as (Ha & Hc & Hs).
    simpl. rewrite Ha, Hc, Hs. repeat split; lia.
  - unfold vprint_display, va_arg.
    destruct (st_args st) as [|a rest];
      repeat (first [break_match | progress cbn [bind]]);
      intro H; try discriminate; injection H as <-;
      simpl; repeat split; lia.
Qed.

Lemma run_tokens_arguments (toks : list token) (st st' : dstate) :
  tokens_ok toks = true ->
  run_tokens toks st = Ok st' ->
  length (st_args st) = (arguments_of toks + length (st_args st'))%nat /\
  st_spec_count st' = st_spec_count st + Z.of_nat (length (entries toks)) /\
  st_struct_count st <= st_struct_count st'
    <= st_struct_count st + Z.of_nat (opaque_of toks).
Proof.
  revert st; induction toks as [|t toks IH]; intros st Hok.
  - intro H; injection H as <-. simpl. repeat split; lia.
  - cbn [tokens_ok] in Hok. apply andb_prop in Hok.
    destruct Hok as [Ht Hrest].
    assert (Ht1 : tokens_ok [t] = true)
      by (cbn [tokens_ok]; rewrite andb_true_r;
          destruct t; try exact Ht;
          apply andb_prop in Ht; destruct Ht as [Ht _];
          rewrite Ht; simpl; rewrite andb_false_r; reflexivity).
    cbn [run_tokens].
    destruct (token_step t st) as [st1|] eqn:E; cbn [bind]; [|discriminate].
    intro H. apply (IH st1 Hrest) in H.
    apply (token_step_arguments t st st1 Ht1) in E.
    unfold arguments_of, opaque_of in *. rewrite entries_cons, length_app.
    unfold list_sum in *. cbn [map fold_right]. lia.
Qed.

(** X7: On a template made of tokens a call that returns has taken exactly one
    argument for every marker and one for every delimiter, also for a
    marker with a star; the markers are all counted, and the returned value
    exceeds their number by at most the number of delimiters. *)
Theorem display_vprint_tokens_arguments (toks : list token)
  (args : list arg) (r : Z) (st : dstate) :
  tokens_ok toks = true ->
  display_vprint (Some (template_of toks)) args = Ok (r, st) ->
  length args = (arguments_of toks + length (st_args st))%nat /\
  st_spec_count st = Z.of_nat (length (entries toks)) /\
  Z.of_nat (length (entries toks)) <= r
    <= Z.of_nat (length (entries toks)) + Z.of_nat (opaque_of toks).
Proof.
  intros Hok. rewrite vprint_on_tokens by exact Hok.
  destruct (run_tokens toks _) as [st1|] eqn:E; cbn [bind]; [|discriminate].
  intro H; injection H as <- <-.
  apply (run_tokens_arguments _ _ _ Hok) in E. simpl in E. lia.
Qed.

(** ** No loop runs forever *)

(** X1: the scanner and both drivers return on every template and every
    argument list: each turn of their loops moves the position forward, also
    over a malformed marker, so none of them runs forever. *)
Theorem loops_terminate (file : option stream) (format : option string)
  (args : list arg) :
  find_format_specifiers format <> Fault OutOfFuel /\
  display_vprint format args <> Fault OutOfFuel /\
  display_vfprint file format args <> Fault OutOfFuel.
Proof.
  split.
  - destruct format as [s|]; [|discriminate].
    apply find_format_specifiers_terminates.
  - split.
    + apply display_vprint_terminates.
    + apply display_vfprint_terminates.
Qed.

(** ** Examples for the statements with hypotheses *)

Lemma scan_marker_grammar_witness :
  marker_ok example_marker = true /\
  scan_marker (marker_text example_marker ++ chars "!")
  = Ok (chars "!", Some (marker_entry example_marker)).
Proof.
  split; [reflexivity|].
  apply (scan_marker_grammar example_marker (chars "!")). reflexivity.
Defined.

Lemma find_format_specifiers_tokens_witness :
  tokens_ok example_tokens = true /\
  find_format_specifiers (Some (template_of example_tokens))
  = Ok (entries example_tokens).
Proof.
  split; [reflexivity|].
  apply (find_format_specifiers_tokens example_tokens). reflexivity.
Defined.

Lemma display_vprint_tokens_witness :
  tokens_ok example_tokens = true /\
  display_vprint (Some (template_of example_tokens)) example_args =
  do st <- run_tokens example_tokens
             (init (tokens_text example_tokens ++ [NUL]) example_args);
  Ok (st_spec_count st + st_struct_count st, st).
Proof.
  split; [reflexivity|].
  apply (display_vprint_tokens example_tokens example_args). reflexivity.
Defined.

Lemma display_vfprint_tokens_witness :
  tokens_ok example_tokens = true /\
  display_vfprint (Some 3%nat) (Some (template_of example_tokens))
    example_args =
  do st <- frun_tokens 3%nat example_tokens
             (init (tokens_text example_tokens ++ [NUL]) example_args);
  Ok (st_spec_count st + st_struct_count st, st).
Proof.
  split; [reflexivity|].
  apply (display_vfprint_tokens 3%nat example_tokens example_args).
  reflexivity.
Defined.

Lemma display_vprint_tokens_faults_witness :
  tokens_ok example_tokens = true /\
  display_vprint (Some (template_of example_tokens)) [AInt 7]
  = Fault BadArg /\
  BadArg = BadArg.
Proof.
  split; [reflexivity|]. split; [vm_compute; reflexivity|].
  apply (display_vprint_tokens_faults example_tokens [AInt 7] BadArg);
    [reflexivity | vm_compute; reflexivity].
Defined.

Lemma display_plain_text_witness :
  plain_text (chars "a {b} c") = true /\
  (exists st,
     display_vprint (Some "a {b} c") example_args = Ok (0, st) /\
     st_stdout st = map EvChar (chars "a {b} c") /\
     (forall native, sink_text native (st_stdout st) = "a {b} c") /\
     st_args st = example_args /\ st_mem st = [] /\ st_file st = []) /\
  (exists st,
     display_vfprint (Some 3%nat) (Some "a {b} c") example_args
     = Ok (0, st) /\
     st_file st = map EvChar (chars "a {b} c") /\
     (forall native, sink_text native (st_file st) = "a {b} c") /\
     st_args st = example_args /\ st_mem st = [] /\ st_stdout st = []).
Proof.
  split; [reflexivity|].
  apply (display_plain_text 3%nat "a {b} c" example_args). reflexivity.
Defined.

Lemma display_vprint_returns_witness :
  exists st,
    display_vprint (Some (template_of example_tokens)) example_args
    = Ok (2, st) /\
    (2 = -1 <-> Some (template_of example_tokens) = None) /\
    (forall s, Some (template_of example_tokens) = Some s ->
               0 <= 2 <= Z.of_nat (String.length s)).
Proof.
  eexists. split; [vm_compute; reflexivity|].
  eapply (display_vprint_returns (Some (template_of example_tokens))
            example_args 2).
  vm_compute; reflexivity.
Defined.

Lemma display_vfprint_returns_witness :
  exists st,
    display_vfprint (Some 3%nat) (Some (template_of example_tokens))
      example_args = Ok (2, st) /\
    (2 = -1 <-> Some (template_of example_tokens) = None
                \/ Some 3%nat = None) /\
    (forall s f, Some (template_of example_tokens) = Some s ->
                 Some 3%nat = Some f ->
                 0 <= 2 <= Z.of_nat (String.length s)).
Proof.
  eexists. split; [vm_compute; reflexivity|].
  eapply (display_vfprint_returns (Some 3%nat)
            (Some (template_of example_tokens)) example_args 2).
  vm_compute; reflexivity.
Defined.

Lemma display_cursor_tail_witness :
  exists st,
    display_vprint (Some "%d") [AInt 1; AInt 2] = Ok (1, st) /\
    exists used, [AInt 1; AInt 2] = used ++ st_args st.
Proof.
  eexists. split; [vm_compute; reflexivity|].
  eapply (display_cursor_tail None (Some "%d") [AInt 1; AInt 2] 1).
  left. vm_compute; reflexivity.
Defined.

Lemma display_no_n_no_store_witness :
  ~ In "n"%char (chars "%d{}") /\
  exists st,
    display_vprint (Some "%d{}") example_args = Ok (2, st) /\
    st_mem st = [].
Proof.
  assert (Hn : ~ In "n"%char (chars "%d{}"))
    by (simpl; intros [H|[H|[H|[H|[]]]]]; discriminate).
  split; [exact Hn|].
  eexists. split; [vm_compute; reflexivity|].
  eapply (display_no_n_no_store None "%d{}" example_args 2 _ Hn).
  left. vm_compute; reflexivity.
Defined.

Lemma find_format_specifiers_shape_witness :
  find_format_specifiers (Some "%5.1Lf %y %s")
  = Ok [spec "%5.1Lf" TYPE_LONG_DOUBLE; spec "%s" TYPE_STRING] /\
  Forall entry_shape [spec "%5.1Lf" TYPE_LONG_DOUBLE; spec "%s" TYPE_STRING].
Proof.
  split; [vm_compute; reflexivity|].
  apply (find_format_specifiers_shape (Some "%5.1Lf %y %s")).
  vm_compute; reflexivity.
Defined.

Lemma display_vprint_tokens_arguments_witness :
  tokens_ok example_tokens = true /\
  exists st,
    display_vprint (Some (template_of example_tokens)) example_args
    = Ok (2, st) /\
    length example_args
    = (arguments_of example_tokens + length (st_args st))%nat /\
    st_spec_count st = Z.of_nat (length (entries example_tokens)) /\
    Z.of_nat (length (entries example_tokens)) <= 2
      <= Z.of_nat (length (entries example_tokens))
         + Z.of_nat (opaque_of example_tokens).
Proof.
  split; [reflexivity|].
  eexists. split; [vm_compute; reflexivity|].
  eapply (display_vprint_tokens_arguments example_tokens example_args 2);
    [reflexivity | vm_compute; reflexivity].
Defined.

(** ** Templates that end inside a marker *)

Lemma scan_loop_tokens_tail (toks : list token) (tail : list ascii) :
  tokens_ok toks = true ->
  forall fuel acc,
    (length (tokens_text toks) < fuel)%nat ->
    exists fuel',
      (fuel <= fuel' + length (tokens_text toks))%nat /\
      scan_loop fuel (tokens_text toks ++ tail) acc
      = scan_loop fuel' tail (acc ++ entries toks).
Proof.
  induction toks as [|t toks IH]; intros Hok fuel acc Hfuel.
  - exists fuel. simpl. rewrite app_nil_r. split; [lia | reflexivity].
  - cbn [tokens_ok] in Hok. apply andb_prop in Hok.
    destruct Hok as [Ht Hrest]. specialize (IH Hrest).
    rewrite tokens_text_cons, entries_cons in *. rewrite length_app in *.
    destruct fuel as [|fuel]; [lia|].
    destruct t as [c| |m|].
    + apply andb_prop in Ht. destruct Ht as [Ht _].
      apply andb_prop in Ht. destruct Ht as [Hp Hn].
      apply negb_true_iff in Hp, Hn.
      cbn [token_text token_entries app scan_loop deref bind tl length] in *.
      rewrite Hn, Hp.
      destruct (IH fuel acc) as (fuel' & Hf & Heq); [lia|].
      exists fuel'. split; [lia | exact Heq].
    + cbn [token_text token_entries app scan_loop deref bind tl chars
           list_ascii_of_string Ascii.eqb Bool.eqb NUL Ascii.zero length]
        in *.
      destruct (IH fuel acc) as (fuel' & Hf & Heq); [lia|].
      exists fuel'. split; [lia | exact Heq].
    + cbn [token_text token_entries] in *.
      rewrite <- app_assoc.
      destruct (marker_second_char m (tokens_text toks ++ tail) Ht)
        as (c1 & y & E & Hc1).
      cbn [scan_loop]. rewrite E.
      cbn [deref bind tl Ascii.eqb Bool.eqb NUL Ascii.zero].
      rewrite Hc1. rewrite <- E.
      rewrite scan_marker_of_marker by exact Ht. cbn [bind].
      pose proof (marker_text_length m).
      destruct (IH fuel (acc ++ [marker_entry m])) as (fuel' & Hf & Heq);
        [lia|].
      exists fuel'. split; [lia|]. rewrite Heq, <- app_assoc. reflexivity.
    + cbn [token_text token_entries chars list_ascii_of_string app length]
        in *.
      destruct fuel as [|fuel]; [lia|].
      cbn [scan_loop deref bind tl Ascii.eqb Bool.eqb NUL Ascii.zero].
      destruct (IH fuel acc) as (fuel' & Hf & Heq); [lia|].
      exists fuel'. split; [lia | exact Heq].
Qed.

Lemma flags_width_unfinished (w : list ascii) :
  forallb isdigit w = true ->
  forall (A : Type) (k : list ascii * ptr -> result A),
    (do p <- skip_flags (w ++ [NUL]);
     do p <- skip_width p;
     do p <- skip_precision p;
     do x <- read_length p;
     k x) = Fault OutOfBounds.
Proof.
  induction w as [|d w IHw]; intros Hw A k; [reflexivity|].
  simpl in Hw. apply andb_prop in Hw. destruct Hw as [Hdg Hw].
  cbn [app skip_flags].
  destruct (strchr "-+ #0" d) eqn:Ef; [exact (IHw Hw A k)|].
  cbn [bind]. unfold skip_width. cbn [deref bind].
  destruct (isdigit_facts d Hdg) as (Hs & _). rewrite Hs.
  change (d :: w ++ [NUL]) with ((d :: w) ++ [NUL]).
  rewrite skip_digits_app by (simpl; rewrite Hdg; exact Hw).
  reflexivity.
Qed.

Lemma scan_marker_unfinished (fl w : list ascii) :
  forallb is_flag fl = true -> forallb isdigit w = true ->
  scan_marker ("%"%char :: fl ++ w ++ [NUL]) = Fault OutOfBounds.
Proof.
  intros Hfl Hw. unfold scan_marker. cbn [tl].
  rewrite skip_flags_app by exact Hfl.
  apply (flags_width_unfinished w Hw).
Qed.

(** X16: A template that ends inside a marker, behind the percent sign, flags
    and digits of a width, makes the scanner read behind the terminator,
    whatever tokens come before; both drivers end in that fault. *)
Theorem unfinished_marker_out_of_bounds (file : stream)
  (toks : list token) (fl w : list ascii) (args : list arg) :
  tokens_ok toks = true ->
  forallb is_flag fl = true -> forallb isdigit w = true ->
  let format :=
    Some (string_of_list_ascii (tokens_text toks ++ "%"%char :: fl ++ w)) in
  find_format_specifiers format = Fault OutOfBounds /\
  display_vprint format args = Fault OutOfBounds /\
  display_vfprint (Some file) format args = Fault OutOfBounds.
Proof.
  intros Hok Hfl Hw format.
  assert (Hsc : find_format_specifiers format = Fault OutOfBounds).
  { unfold format, find_format_specifiers, c_array. cbv zeta.
    rewrite list_ascii_of_string_of_list_ascii, <- app_assoc.
    destruct (scan_loop_tokens_tail toks
                (("%"%char :: fl ++ w) ++ [NUL]) Hok
                (S (length (tokens_text toks ++ ("%"%char :: fl ++ w)
                            ++ [NUL]))) [])
      as (fuel' & Hf & Heq).
    { rewrite length_app. lia. }
    rewrite Heq. rewrite length_app in Hf. simpl length in Hf.
    destruct fuel' as [|fuel']; [lia|].
    cbn [app scan_loop deref bind tl Ascii.eqb Bool.eqb NUL Ascii.zero].
    rewrite <- app_assoc.
    assert (Hc1 : exists c1 y, fl ++ w ++ [NUL] = c1 :: y /\
                               Ascii.eqb c1 "%" = false).
    { destruct fl as [|f fl'].
      - destruct w as [|d w'].
        + eexists; eexists; split; reflexivity.
        + simpl in Hw. apply andb_prop in Hw. destruct Hw as [Hd _].
          apply isdigit_facts in Hd. destruct Hd as (_ & Hd & _).
          eexists; eexists; split; [reflexivity | exact Hd].
      - simpl in Hfl. apply andb_prop in Hfl. destruct Hfl as [Hf' _].
        apply is_flag_facts in Hf'. destruct Hf' as (_ & Hf' & _).
        eexists; eexists; split; [reflexivity | exact Hf']. }
    destruct Hc1 as (c1 & y & E & Hc1).
    rewrite E. cbn [deref bind]. rewrite Hc1. rewrite <- E.
    rewrite scan_marker_unfinished by assumption. reflexivity. }
  split; [exact Hsc|].
  unfold display_vprint, display_vfprint. unfold format in *.
  rewrite Hsc. split; reflexivity.
Qed.

Lemma unfinished_marker_out_of_bounds_witness :
  tokens_ok example_tokens = true /\
  forallb is_flag (chars "-0") = true /\
  forallb isdigit (chars "12") = true /\
  let format :=
    Some (string_of_list_ascii
            (tokens_text example_tokens ++ "%"%char :: chars "-0"
             ++ chars "12")) in
  find_format_specifiers format = Fault OutOfBounds /\
  display_vprint format example_args = Fault OutOfBounds /\
  display_vfprint (Some 3%nat) format example_args = Fault OutOfBounds.
Proof.
  split; [reflexivity|]. split; [reflexivity|]. split; [reflexivity|].
  apply (unfinished_marker_out_of_bounds 3%nat example_tokens
           (chars "-0") (chars "12") example_args); reflexivity.
Defined.
